(** * Campaign agent: the RAG helper and the document chunker

    A shallow embedding of the retrieval-augmented-generation core of the
    campaign agent:

    - [supabase_client.py]: [SupabaseManager] (insert, similarity search,
      count) over a remote vector store;
    - [brand_rag.py]: [BrandRAG] (embedding with random fallback, retrieval
      policy with brand/platform scopes and default examples);
    - [main.py]: the paragraph chunking loop of the "Process Documents"
      handler.

    Python code is embedded in a small state-and-exception monad: the state
    is the sequence of observable events (remote calls, printed lines) and
    the state of numpy's global random generator; a computation either
    returns a value or raises.  The remote services (the Supabase client,
    the sentence-transformer) are black boxes: arbitrary functions from a
    request to either a response or an exception. *)

From Stdlib Require Import ZArith QArith List Lia Bool.
From stdpp Require Import base option list strings gmap.

Import ListNotations.
Local Open Scope Z_scope.

(** ** Python values and the effect monad *)

Module Py.

(** The Python values stored in metadata dictionaries and returned as row
    identifiers. *)
Inductive PyVal : Type :=
| PyNone
| PyBool (b : bool)
| PyInt (z : Z)
| PyStr (s : string).

(** The outcome of evaluating a call: a value, or a raised exception
    (identified by [str(e)]). *)
Inductive Res (A : Type) : Type :=
| Val (a : A)
| Raise (e : string).
Arguments Val {A} a.
Arguments Raise {A} e.

(** [seq[:k]] for a Python integer [k]: a negative [k] counts from the
    end. *)
Definition slice_to {A : Type} (k : Z) (l : list A) : list A :=
  if 0 <=? k then take (Z.to_nat k) l
  else take (length l - Z.to_nat (- k))%nat l.

(** Truthiness of a list ([if results:]). *)
Definition nonempty {A : Type} (l : list A) : bool :=
  match l with [] => false | _ :: _ => true end.

(** Truthiness of an optional string ([if brand_id:]): [None] and the
    empty string are falsy. *)
Definition truthy_str (s : option string) : bool :=
  match s with
  | Some (String _ _) => true
  | _ => false
  end.

End Py.
Export Py.

(** ** Data exchanged with the vector store *)

(** A row returned by the [match_knowledge_docs] RPC. *)
Record Row : Type := mkRow {
  content : string;
  similarity : Q;
  row_org_id : option string
}.

(** The parameters of the [match_knowledge_docs] RPC. *)
Record RpcParams : Type := mkRpc {
  p_query_embedding : list Q;
  match_org_id : option string;
  match_threshold : Q;
  match_count : Z
}.

(** The row inserted into [knowledge_docs]. *)
Record InsertData : Type := mkInsert {
  d_content : string;
  d_embedding : list Q;
  d_org_id : option string;
  d_doc_type : string;
  d_metadata : gmap string PyVal
}.

(** A row of [result.data] after an insert; only its ["id"] is read. *)
Record InsertedRow : Type := mkInserted {
  row_id : PyVal
}.

(** The response of the count query: [count_attr = None] when the response
    object has no [count] attribute, otherwise the attribute's value. *)
Record CountResponse : Type := mkCount {
  count_attr : option PyVal
}.

(** The remote client: every [execute()] either raises or returns; an
    insert and an RPC return [result.data], which may be [None]. *)
Record Client : Type := mkClient {
  insert_execute : InsertData -> Res (option (list InsertedRow));
  rpc_execute : RpcParams -> Res (option (list Row));
  count_execute : option string -> Res CountResponse
}.

(** The sentence-transformer: [encode(text).tolist()]. *)
Record Embedder : Type := mkEmbedder {
  encode : string -> Res (list Q)
}.

(** ** Observable events *)

(** The lines the code prints. *)
Inductive LogLine : Type :=
| LogNotConnected                  (* "Not connected to Supabase" *)
| LogSearchFailed (e : string)     (* "Semantic search failed: {e}" *)
| LogCountFailed (e : string)      (* "Count failed: {e}" *)
| LogRandomFallback                (* "Using random embedding fallback" *)
| LogEmbeddingFailed (e : string)  (* "Embedding creation failed: {e}" *)
| LogSupabaseUnavailable           (* "Supabase not available, using default examples" *)
| LogFoundBrand (n : nat)          (* "Found {n} brand-specific results" *)
| LogFoundPlatform (n : nat)       (* "Found {n} platform knowledge results" *)
| LogRetrieved (n : nat)           (* "Retrieved {n} relevant examples" *)
| LogNoResults                     (* "No results found, using defaults" *)
| LogRetrievalFailed (e : string). (* "RAG retrieval failed: {e}, using defaults" *)

Inductive Event : Type :=
| EvPrint (line : LogLine)
| EvEncode (text : string)
| EvInsert (data : InsertData)
| EvRpc (params : RpcParams)
| EvCount (org_id : option string).

(** The world: the events so far (oldest first) and the stream of numbers
    numpy's global generator will still produce. *)
Record World : Type := mkWorld {
  log : list Event;
  rng : nat -> Q
}.

Module PyM.

Definition M (A : Type) : Type := World -> Res A * World.

Definition ret {A : Type} (a : A) : M A := fun w => (Val a, w).

Definition bind {A B : Type} (m : M A) (k : A -> M B) : M B :=
  fun w =>
    match m w with
    | (Val a, w') => k a w'
    | (Raise e, w') => (Raise e, w')
    end.

(** [try: body  except Exception as e: handler(e)]; the effects of the
    body up to the exception stay. *)
Definition try_except {A : Type} (body : M A) (handler : string -> M A) : M A :=
  fun w =>
    match body w with
    | (Val a, w') => (Val a, w')
    | (Raise e, w') => handler e w'
    end.

(** Lifts the outcome of a remote call, after recording it. *)
Definition call {A : Type} (ev : Event) (r : Res A) : M A :=
  fun w => (r, {| log := log w ++ [ev]; rng := rng w |}).

Definition print (line : LogLine) : M unit := call (EvPrint line) (Val tt).

(** [np.random.rand(n).tolist()]: the next [n] numbers of the stream. *)
Definition random_rand (n : nat) : M (list Q) :=
  fun w => (Val (map (rng w) (seq 0 n)),
            {| log := log w; rng := fun i => rng w (n + i)%nat |}).

End PyM.
Export PyM.

Declare Scope py_scope.
Delimit Scope py_scope with py.
Notation "x <- m ;; k" := (bind m (fun x => k))
  (at level 100, m at next level, k at level 200, right associativity) : py_scope.
Notation "m ;; k" := (bind m (fun _ => k))
  (at level 100, k at level 200, right associativity) : py_scope.
Local Open Scope py_scope.

(** ** supabase_client.py *)

Record SupabaseManager : Type := mkManager {
  client : option Client
}.

(** The result dictionary of [store_knowledge_chunk]:
    [{"success": True, "id": id}] or [{"success": False, "error": msg}]. *)
Inductive StoreResult : Type :=
| StoreOk (id : PyVal)
| StoreErr (error : string).

Definition success (r : StoreResult) : bool :=
  match r with StoreOk _ => true | StoreErr _ => false end.

Definition is_connected (self : SupabaseManager) : bool :=
  match client self with Some _ => true | None => false end.

(** [metadata or {}], then the two item assignments. *)
Definition full_metadata (metadata : option (gmap string PyVal))
    (source : string) (chunk_index : Z) : gmap string PyVal :=
  let full_metadata :=
    match metadata with
    | None => ∅
    | Some m => if decide (m = ∅) then ∅ else m
    end in
  let full_metadata := <["source" := PyStr source]> full_metadata in
  <["chunk_index" := PyInt chunk_index]> full_metadata.

(** The [data] dictionary of lines 66-72. *)
Definition insert_data (content : string) (embedding : list Q)
    (org_id : option string) (source : string) (chunk_index : Z)
    (metadata : option (gmap string PyVal)) : InsertData :=
  {| d_content := content;
     d_embedding := embedding;
     d_org_id := org_id;
     d_doc_type := "knowledge_chunk";
     d_metadata := full_metadata metadata source chunk_index |}.

Definition store_knowledge_chunk (self : SupabaseManager)
    (content : string) (embedding : list Q) (org_id : option string)
    (source : string) (chunk_index : Z)
    (metadata : option (gmap string PyVal)) : M StoreResult :=
  match client self with
  | None => ret (StoreErr "Not connected to Supabase")
  | Some c =>
    try_except
      (let data := insert_data content embedding org_id source
                     chunk_index metadata in
       result_data <- call (EvInsert data) (insert_execute c data) ;;
       match result_data with
       | Some (row :: _) => ret (StoreOk (row_id row))
       | _ => ret (StoreErr "No data returned")
       end)
      (fun e => ret (StoreErr e))
  end.

Definition semantic_search (self : SupabaseManager)
    (query_embedding : list Q) (org_id : option string)
    (limit : Z) (threshold : Q) : M (list Row) :=
  match client self with
  | None => print LogNotConnected ;; ret []
  | Some c =>
    try_except
      (let params := {| p_query_embedding := query_embedding;
                        match_org_id := org_id;
                        match_threshold := threshold;
                        match_count := limit |} in
       result_data <- call (EvRpc params) (rpc_execute c params) ;;
       match result_data with
       | Some (row :: rows) => ret (row :: rows)
       | _ => ret []
       end)
      (fun e => print (LogSearchFailed e) ;; ret [])
  end.

Definition count_knowledge_chunks (self : SupabaseManager)
    (org_id : option string) : M PyVal :=
  match client self with
  | None => ret (PyInt 0)
  | Some c =>
    try_except
      (result <- call (EvCount org_id) (count_execute c org_id) ;;
       match count_attr result with
       | Some n => ret n
       | None => ret (PyInt 0)
       end)
      (fun e => print (LogCountFailed e) ;; ret (PyInt 0))
  end.

(** ** brand_rag.py *)

Record BrandRAG : Type := mkRag {
  embedder : option Embedder;
  db : option SupabaseManager
}.

(** Dimension of the all-MiniLM-L6-v2 embeddings. *)
Definition embedding_dim : nat := 384.

Definition create_embedding (self : BrandRAG) (text : string) : M (list Q) :=
  match embedder self with
  | None =>
    print LogRandomFallback ;;
    random_rand embedding_dim
  | Some model =>
    try_except
      (embedding <- call (EvEncode text) (encode model text) ;;
       ret embedding)
      (fun e => print (LogEmbeddingFailed e) ;; random_rand embedding_dim)
  end.

(** The hardcoded B2B SaaS examples (UTF-8 text). *)
Definition _get_default_examples : list string :=
  [ "Are you still manually pulling data from 5 different tools?

We talked to 200+ startup founders. 73% said they lose 6+ hours per week just gathering basic metrics.

Here's what changed:
→ One dashboard. All your data.
→ Zero SQL required.
→ Insights in minutes, not days.

Try it free for 14 days.";
    "Question for founders: When was the last time you made a product decision based on data vs. a hunch?

Teams that track retention weekly grow 2.3x faster.

You don't need a data team. You need the right tool.";
    "Real talk: Most analytics tools were built for enterprises with data teams.

You're a startup. You need something that works today.

✅ Connect in 5 minutes
✅ Pre-built dashboards
✅ Plain English insights" ]%string.

(** [self.db] when it is set and connected: the guard
    [not self.db or not self.db.is_connected()] fails exactly then. *)
Definition available_db (self : BrandRAG) : option SupabaseManager :=
  match db self with
  | Some d => if is_connected d then Some d else None
  | None => None
  end.

(** The similarity threshold of both searches, 0.5. *)
Definition search_threshold : Q := 1 # 2.

Definition retrieve_brand_context (self : BrandRAG)
    (brand_id : option string) (query : string)
    (top_k : Z) (include_platform : bool) : M (list string) :=
  match available_db self with
  | None =>
    print LogSupabaseUnavailable ;;
    ret _get_default_examples
  | Some d =>
    try_except
      (query_embedding <- create_embedding self query ;;
       results <-
         (if truthy_str brand_id then
            brand_results <- semantic_search d query_embedding brand_id
                               top_k search_threshold ;;
            print (LogFoundBrand (length brand_results)) ;;
            ret ([] ++ brand_results)
          else ret []) ;;
       results <-
         (if include_platform && (Z.of_nat (length results) <? top_k) then
            let remaining := top_k - Z.of_nat (length results) in
            platform_results <- semantic_search d query_embedding None
                                  remaining search_threshold ;;
            print (LogFoundPlatform (length platform_results)) ;;
            ret (results ++ platform_results)
          else ret results) ;;
       if nonempty results then
         let examples := map content (slice_to top_k results) in
         print (LogRetrieved (length examples)) ;;
         ret examples
       else
         print LogNoResults ;;
         ret _get_default_examples)
      (fun e =>
         print (LogRetrievalFailed e) ;;
         ret _get_default_examples)
  end.

(** ** main.py: the chunking loop of the "Process Documents" handler *)

(** The chunker measures and cuts text, so here a Python [str] is the
    sequence of its Unicode code points. *)
Module Text.

Definition pystr : Type := list N.

Definition NUL : N := 0%N.
Definition LF : N := 10%N.

(** [len(s)] *)
Definition len (s : pystr) : Z := Z.of_nat (length s).

(** The characters [str.strip()] removes: those for which
    [str.isspace()] holds. *)
Definition isspace (c : N) : bool :=
  ((9 <=? c) && (c <=? 13) || (28 <=? c) && (c <=? 32)
   || (c =? 133) || (c =? 160) || (c =? 5760)
   || (8192 <=? c) && (c <=? 8202)
   || (c =? 8232) || (c =? 8233) || (c =? 8239) || (c =? 8287)
   || (c =? 12288))%N.

Fixpoint lstrip (s : pystr) : pystr :=
  match s with
  | c :: s' => if isspace c then lstrip s' else s
  | [] => []
  end.

Definition rstrip (s : pystr) : pystr := rev (lstrip (rev s)).

Definition strip (s : pystr) : pystr := rstrip (lstrip s).

(** [s.replace('\x00', '')] *)
Definition remove_nul (s : pystr) : pystr :=
  List.filter (fun c => negb (c =? NUL)%N) s.

(** Puts a character in front of the first piece. *)
Definition push (c : N) (pieces : list pystr) : list pystr :=
  match pieces with
  | p :: ps => (c :: p) :: ps
  | [] => [[c]]
  end.

(** [s.split('\n\n')]: cuts at the leftmost occurrences of two line
    feeds, which do not overlap. *)
Fixpoint split_blank (s : pystr) : list pystr :=
  match s with
  | [] => [[]]
  | c :: s' =>
    match s' with
    | d :: rest =>
      if ((c =? LF) && (d =? LF))%N then [] :: split_blank rest
      else push c (split_blank s')
    | [] => push c (split_blank s')
    end
  end.

(** ['\n\n'.join(pieces)] *)
Fixpoint join_blank (pieces : list pystr) : pystr :=
  match pieces with
  | [] => []
  | [p] => p
  | p :: ps => p ++ [LF; LF] ++ join_blank ps
  end.

(** An ASCII literal as a [str]. *)
Definition of_string (s : string) : pystr :=
  map Ascii.N_of_ascii (String.list_ascii_of_string s).

End Text.
Export Text.

(** Lines 154-159: the text of the pages that have some, without null
    characters, each followed by a line feed. *)
Definition extract_full_text (pages : list (option pystr)) : pystr :=
  fold_left
    (fun full_text text =>
       match text with
       | Some (c :: t) => full_text ++ remove_nul (remove_nul (c :: t)) ++ [LF]
       | _ => full_text
       end)
    pages [].

(** Lines 174-177 and 180-183: the buffer is emitted, stripped and without
    null characters, unless that leaves nothing. *)
Definition flush (chunks : list pystr) (current_chunk : pystr) : list pystr :=
  if nonempty (strip current_chunk) then
    let clean := remove_nul (strip current_chunk) in
    if nonempty clean then chunks ++ [clean] else chunks
  else chunks.

(** One iteration of the loop over the paragraphs (lines 166-178). *)
Definition chunk_step (st : list pystr * pystr) (para : pystr)
    : list pystr * pystr :=
  let '(chunks, current_chunk) := st in
  let para := strip para in
  if negb (nonempty para) then (chunks, current_chunk)
  else if len current_chunk + len para <? 500
       then (chunks, current_chunk ++ para ++ [LF; LF])
       else (flush chunks current_chunk, para ++ [LF; LF]).

(** Lines 161-183. *)
Definition chunk_text (full_text : pystr) : list pystr :=
  let paragraphs := split_blank full_text in
  let '(chunks, current_chunk) := fold_left chunk_step paragraphs ([], []) in
  flush chunks current_chunk.



(** ** Construction, ingestion and statistics

    The constructors, [store_brand_examples] and [get_stats] print lines
    of their own and reach two more services (the client factory and the
    model loader).  They run in a second layer of the same monad, whose
    events embed those of the first. *)

(** The lines these functions print. *)
Inductive Line2 : Type :=
| LogClientReady                    (* "Supabase client initialized successfully" *)
| LogClientFailed (e : string)      (* "Failed to initialize Supabase: {e}" *)
| LogModelLoading                   (* "Loading sentence transformer model..." *)
| LogModelReady                     (* "Sentence transformer loaded successfully ..." *)
| LogModelFailed (e : string)       (* "Failed to load embeddings model: {e}" *)
| LogConnecting                     (* "Connecting to Supabase..." *)
| LogConnected                      (* "Supabase connected successfully" *)
| LogPlatformCount (count : PyVal)  (* "Platform knowledge chunks available: {count}" *)
| LogConnectionFailed               (* "Supabase connection failed" *)
| LogSupabaseInitFailed (e : string) (* "Supabase initialization failed: {e}" *)
| LogStoreUnavailable               (* "Supabase not available" *)
| LogChunkFailed (idx : Z) (error : string) (* "Failed to store chunk {idx}: {error}" *)
| LogStored (success_count total : Z) (* "Stored {success_count}/{total} examples" *)
| LogStoreError (e : string)        (* "Error storing examples: {e}" *)
| LogStatsFailed (e : string).      (* "Failed to get stats: {e}" *)

Inductive Event2 : Type :=
| Inner (ev : Event)
| Print2 (line : Line2)
| EvCreateClient (url key : string)
| EvLoadModel (name device : string).

Record World2 : Type := mkWorld2 {
  log2 : list Event2;
  rng2 : nat -> Q
}.

Module PyM2.

Definition M2 (A : Type) : Type := World2 -> Res A * World2.

Definition ret2 {A : Type} (a : A) : M2 A := fun w => (Val a, w).

Definition raise2 {A : Type} (e : string) : M2 A := fun w => (Raise e, w).

Definition bind2 {A B : Type} (m : M2 A) (k : A -> M2 B) : M2 B :=
  fun w =>
    match m w with
    | (Val a, w') => k a w'
    | (Raise e, w') => (Raise e, w')
    end.

Definition try_except2 {A : Type} (body : M2 A) (handler : string -> M2 A)
    : M2 A :=
  fun w =>
    match body w with
    | (Val a, w') => (Val a, w')
    | (Raise e, w') => handler e w'
    end.

Definition call2 {A : Type} (ev : Event2) (r : Res A) : M2 A :=
  fun w => (r, {| log2 := log2 w ++ [ev]; rng2 := rng2 w |}).

Definition print2 (line : Line2) : M2 unit := call2 (Print2 line) (Val tt).

(** Runs a computation of the first layer: its events, which it only
    appends and never reads, are embedded in order. *)
Definition lift {A : Type} (m : M A) : M2 A :=
  fun w =>
    let '(r, w') := m {| log := []; rng := rng2 w |} in
    (r, {| log2 := log2 w ++ map Inner (log w'); rng2 := rng w' |}).

End PyM2.
Export PyM2.

Declare Scope py2_scope.
Delimit Scope py2_scope with py2.
Notation "x <- m ;; k" := (bind2 m (fun x => k))
  (at level 100, m at next level, k at level 200, right associativity) : py2_scope.
Notation "m ;; k" := (bind2 m (fun _ => k))
  (at level 100, k at level 200, right associativity) : py2_scope.

(** What the process finds around it: the [supabase] section of the
    Streamlit secrets (the test [hasattr(st, 'secrets') and 'supabase' in
    st.secrets] may raise, fail or give the section), the environment
    variables, the client factory and the model loader. *)
Record Platform : Type := mkPlatform {
  secrets_supabase : Res (option (gmap string string));
  getenv : string -> option string;
  create_client : string -> string -> Res Client;
  SentenceTransformer : string -> string -> Res Embedder
}.

(** [SupabaseManager._initialize_client]: the value left in
    [self.client]. *)
Definition _initialize_client (env : Platform) : M2 (option Client) :=
  (try_except2
     (creds <-
        match secrets_supabase env with
        | Raise e => raise2 e
        | Val (Some section) =>
          match section !! "url"%string with
          | None => raise2 "'url'"
          | Some url =>
            match section !! "anon_key"%string with
            | None => raise2 "'anon_key'"
            | Some key => ret2 (Some url, Some key)
            end
          end
        | Val None =>
          ret2 (getenv env "SUPABASE_URL", getenv env "SUPABASE_ANON_KEY")
        end ;;
      match creds with
      | (Some url, Some key) =>
        if truthy_str (Some url) && truthy_str (Some key) then
          c <- call2 (EvCreateClient url key) (create_client env url key) ;;
          print2 LogClientReady ;;
          ret2 (Some c)
        else raise2 "Supabase credentials not found in secrets or environment"
      | _ => raise2 "Supabase credentials not found in secrets or environment"
      end)
     (fun e => print2 (LogClientFailed e) ;; ret2 None))%py2.

(** [SupabaseManager.__init__] *)
Definition SupabaseManager_init (env : Platform) : M2 SupabaseManager :=
  (c <- _initialize_client env ;; ret2 {| client := c |})%py2.

(** [BrandRAG.__init__] *)
Definition BrandRAG_init (env : Platform) : M2 BrandRAG :=
  (print2 LogModelLoading ;;
   model <-
     try_except2
       (m <- call2 (EvLoadModel "all-MiniLM-L6-v2" "cpu")
               (SentenceTransformer env "all-MiniLM-L6-v2" "cpu") ;;
        print2 LogModelReady ;;
        ret2 (Some m))
       (fun e => print2 (LogModelFailed e) ;; ret2 None) ;;
   print2 LogConnecting ;;
   store <-
     try_except2
       (d <- SupabaseManager_init env ;;
        if is_connected d then
          print2 LogConnected ;;
          count <- lift (count_knowledge_chunks d None) ;;
          print2 (LogPlatformCount count) ;;
          ret2 (Some d)
        else
          print2 LogConnectionFailed ;;
          ret2 None)
       (fun e => print2 (LogSupabaseInitFailed e) ;; ret2 None) ;;
   ret2 {| embedder := model; db := store |})%py2.

(** [len(s)] of a text held as UTF-8: its code points, the bytes that do
    not continue a character. *)
Definition py_len (s : string) : Z :=
  Z.of_nat
    (length
       (List.filter
          (fun a => let b := Ascii.N_of_ascii a in negb ((128 <=? b) && (b <? 192))%N)
          (String.list_ascii_of_string s))).

(** The metadata [store_brand_examples] gives with every example. *)
Definition example_metadata (content_type example : string) : gmap string PyVal :=
  {[ "content_type"%string := PyStr content_type;
     "length"%string := PyInt (py_len example) ]}.

(** The loop of [store_brand_examples] over [enumerate(examples)], from
    index [idx] on; it returns [success_count]. *)
Fixpoint store_examples_loop (self : BrandRAG) (d : SupabaseManager)
    (brand_id : option string) (content_type source : string)
    (idx : Z) (examples : list string) (success_count : Z) : M2 Z :=
  match examples with
  | [] => ret2 success_count
  | example :: rest =>
    (embedding <- lift (create_embedding self example) ;;
     result <- lift (store_knowledge_chunk d example embedding brand_id
                       source idx
                       (Some (example_metadata content_type example))) ;;
     success_count <-
       match result with
       | StoreOk _ => ret2 (success_count + 1)
       | StoreErr error =>
         print2 (LogChunkFailed idx error) ;; ret2 success_count
       end ;;
     store_examples_loop self d brand_id content_type source (idx + 1)
       rest success_count)%py2
  end.

Definition store_brand_examples (self : BrandRAG) (brand_id : option string)
    (examples : list string) (content_type source : string) : M2 bool :=
  match available_db self with
  | None => (print2 LogStoreUnavailable ;; ret2 false)%py2
  | Some d =>
    (try_except2
       (success_count <- store_examples_loop self d brand_id content_type
                           source 0 examples 0 ;;
        print2 (LogStored success_count (Z.of_nat (length examples))) ;;
        ret2 (success_count =? Z.of_nat (length examples)))
       (fun e => print2 (LogStoreError e) ;; ret2 false))%py2
  end.


(** * Specification vocabulary *)

(** A computation that returns in every world. *)
Definition never_raises {A : Type} (m : M A) : Prop :=
  forall w, exists a, fst (m w) = Val a.

(** Appends events to a world's log. *)
Definition logged (w : World) (evs : list Event) : World :=
  {| log := log w ++ evs; rng := rng w |}.

(** The world after [np.random.rand(n)]. *)
Definition drawn (w : World) (n : nat) : World :=
  {| log := log w; rng := fun i => rng w (n + i)%nat |}.

(** What a search yields for given parameters: the rows of [result.data],
    nothing when the call raises or the data is missing. *)
Definition rows_of (c : Client) (params : RpcParams) : list Row :=
  match rpc_execute c params with
  | Val (Some rows) => rows
  | _ => []
  end.

(** The events of one search on a connected store. *)
Definition search_events (c : Client) (params : RpcParams) : list Event :=
  EvRpc params ::
  match rpc_execute c params with
  | Raise e => [EvPrint (LogSearchFailed e)]
  | Val _ => []
  end.

(** The search failed: there is no client, or the remote call raised. *)
Definition search_failed (self : SupabaseManager) (params : RpcParams) : bool :=
  match client self with
  | None => true
  | Some c => match rpc_execute c params with Raise _ => true | Val _ => false end
  end.

(** The count failed: there is no client, the remote call raised, or the
    response has no count. *)
Definition count_failed (self : SupabaseManager) (org_id : option string) : bool :=
  match client self with
  | None => true
  | Some c =>
    match count_execute c org_id with
    | Raise _ => true
    | Val r => match count_attr r with None => true | Some _ => false end
    end
  end.

(** ** Fixtures *)

(** A store whose remote calls all raise. *)
Definition failing_client : Client :=
  {| insert_execute := fun _ => Raise "connection reset";
     rpc_execute := fun _ => Raise "connection reset";
     count_execute := fun _ => Raise "connection reset" |}.

Definition quiet_world : World := {| log := []; rng := fun _ => 0%Q |}.

(** A store that accepts every insert and reports the new row, finds
    nothing and counts nothing. *)
Definition accepting_client : Client :=
  {| insert_execute := fun _ => Val (Some [mkInserted (PyInt 42)]);
     rpc_execute := fun _ => Val (Some []);
     count_execute := fun _ => Val (mkCount (Some (PyInt 0))) |}.

(** A store whose count query answers with a response whose [count]
    attribute is [None]. *)
Definition countless_client : Client :=
  {| insert_execute := fun _ => Val (Some [mkInserted (PyInt 42)]);
     rpc_execute := fun _ => Val (Some []);
     count_execute := fun _ => Val (mkCount (Some PyNone)) |}.

(** ** brand_rag.py *)

(** The embedding is a placeholder: the model did not load, or encoding
    this text raises. *)
Definition degraded (self : BrandRAG) (text : string) : bool :=
  match embedder self with
  | None => true
  | Some model => match encode model text with Raise _ => true | Val _ => false end
  end.

(** The requests of the two searches of [retrieve_brand_context] for a
    query embedding [q]. *)
Definition brand_params (q : list Q) (brand_id : option string) (top_k : Z)
    : RpcParams :=
  mkRpc q brand_id search_threshold top_k.

Definition platform_params (q : list Q) (top_k : Z) (brand : list Row)
    : RpcParams :=
  mkRpc q None search_threshold (top_k - Z.of_nat (length brand)).

(** The brand-scoped results: none when no brand is given. *)
Definition brand_rows (c : Client) (q : list Q) (brand_id : option string)
    (top_k : Z) : list Row :=
  if truthy_str brand_id then rows_of c (brand_params q brand_id top_k) else [].

(** The platform search runs when requested and the brand results are
    fewer than [top_k]. *)
Definition platform_wanted (include_platform : bool) (top_k : Z)
    (brand : list Row) : bool :=
  include_platform && (Z.of_nat (length brand) <? top_k).

Definition platform_rows (c : Client) (q : list Q) (include_platform : bool)
    (top_k : Z) (brand : list Row) : list Row :=
  if platform_wanted include_platform top_k brand
  then rows_of c (platform_params q top_k brand) else [].

(** The similarity searches among a sequence of events. *)
Definition rpc_calls (evs : list Event) : list RpcParams :=
  omap (fun ev => match ev with EvRpc p => Some p | _ => None end) evs.

(** Calls to the embedding model among a sequence of events. *)
Definition encode_calls (evs : list Event) : list string :=
  omap (fun ev => match ev with EvEncode t => Some t | _ => None end) evs.

(** A RAG helper without model and without store. *)
Definition offline_rag : BrandRAG := {| embedder := None; db := None |}.

(** A RAG helper over a store that finds nothing. *)
Definition empty_store_rag : BrandRAG :=
  {| embedder := Some (mkEmbedder (fun _ => Val [(1 # 2)%Q]));
     db := Some (mkManager (Some accepting_client)) |}.

(** A store holding two chunks of brandA and one platform chunk; the
    search honours scope and limit. *)
Definition demo_rows (org_id : option string) : list Row :=
  match org_id with
  | Some "brandA"%string =>
    [mkRow "brandA first" (9 # 10) (Some "brandA"%string);
     mkRow "brandA second" (8 # 10) (Some "brandA"%string)]
  | Some _ => []
  | None => [mkRow "platform tip" (95 # 100) None]
  end.

Definition demo_client : Client :=
  {| insert_execute := fun _ => Val (Some [mkInserted (PyInt 1)]);
     rpc_execute := fun p =>
       Val (Some (take (Z.to_nat (match_count p)) (demo_rows (match_org_id p))));
     count_execute := fun _ => Val (mkCount (Some (PyInt 3))) |}.

Definition demo_rag : BrandRAG :=
  {| embedder := Some (mkEmbedder (fun _ => Val [(1 # 2)%Q]));
     db := Some (mkManager (Some demo_client)) |}.

(** ** main.py: chunking *)

(** The blank line between paragraphs. *)
Definition blank : pystr := [LF; LF].

(** The paragraphs of a text: the pieces between blank lines, stripped;
    pieces left empty are skipped. *)
Definition paragraphs (text : pystr) : list pystr :=
  List.filter nonempty (map strip (split_blank text)).

(** What flushing a buffer emits: the buffer without surrounding
    whitespace and null characters, unless that is empty. *)
Definition emit (buffer : pystr) : list pystr :=
  let clean := remove_nul (strip buffer) in
  if nonempty clean then [clean] else [].

(** The greedy accumulation in the specification's words: a paragraph
    joins the buffer, followed by a blank line, unless the buffer's length
    plus the paragraph's reaches [max_chunk_size]; then the buffer is
    flushed and the paragraph starts the next buffer.  What remains in the
    buffer is flushed at the end. *)
Fixpoint accumulate (max_chunk_size : Z) (buffer : pystr)
    (paras : list pystr) : list pystr :=
  match paras with
  | [] => emit buffer
  | p :: rest =>
    if max_chunk_size <=? len buffer + len p
    then emit buffer ++ accumulate max_chunk_size (p ++ blank) rest
    else accumulate max_chunk_size (buffer ++ p ++ blank) rest
  end.

(** The buffer holding the paragraphs [g], each followed by a blank line. *)
Definition buffer_of (g : list pystr) : pystr :=
  concat (map (fun p => p ++ blank) g).

(** The text contains two line feeds in a row. *)
Fixpoint has_blank (s : pystr) : bool :=
  match s with
  | c :: s' =>
    match s' with
    | d :: _ => ((c =? LF) && (d =? LF))%N || has_blank s'
    | [] => false
    end
  | [] => false
  end.

(** Text that starts and ends with a character [strip] keeps. *)
Definition tight (s : pystr) : Prop :=
  s <> [] /\ lstrip s = s /\ lstrip (rev s) = rev s.

(** A paragraph as the loop sees it in a text without null characters. *)
Definition clean (p : pystr) : Prop :=
  tight p /\ has_blank p = false /\ ~ In NUL p.

(** A text whose first paragraph is padded with null characters: with
    them the buffer is full, without them both paragraphs fit one chunk. *)
Definition padded_text : pystr :=
  of_string "a" ++ repeat NUL 497 ++ blank ++ of_string "b".

(** A paragraph longer than the chunk size. *)
Definition long_text : pystr := repeat 120%N 600.


(** ** Vocabulary for the further properties *)

(** A character that neither [strip] nor the null removal may drop. *)
Definition keep (c : N) : bool := negb (isspace c) && negb (c =? NUL)%N.

(** The characters of a text that count: all but whitespace and nulls. *)
Definition visible (s : pystr) : pystr := List.filter keep s.

(** The text [page.extract_text()] gave for a page, empty when it gave
    none. *)
Definition page_text (page : option pystr) : pystr :=
  match page with Some t => t | None => [] end.

(** ** Vocabulary of the second layer *)

Definition logged2 (w : World2) (evs : list Event2) : World2 :=
  {| log2 := log2 w ++ evs; rng2 := rng2 w |}.

(** The credentials given to the client factory among some events. *)
Definition client_calls (evs : list Event2) : list (string * string) :=
  omap (fun ev => match ev with EvCreateClient u k => Some (u, k) | _ => None end)
    evs.

(** The scopes of the count queries among some events. *)
Definition count_calls (evs : list Event2) : list (option string) :=
  omap (fun ev => match ev with Inner (EvCount o) => Some o | _ => None end) evs.

(** The rows sent to the store among some events. *)
Definition insert_calls (evs : list Event2) : list InsertData :=
  omap (fun ev => match ev with Inner (EvInsert d) => Some d | _ => None end) evs.

(** The same surroundings with other environment variables. *)
Definition with_getenv (env : Platform) (g : string -> option string) : Platform :=
  {| secrets_supabase := secrets_supabase env;
     getenv := g;
     create_client := create_client env;
     SentenceTransformer := SentenceTransformer env |}.

(** The store answers the insert of [d] with a row. *)
Definition accepted (c : Client) (d : InsertData) : bool :=
  match insert_execute c d with
  | Val (Some (_ :: _)) => true
  | _ => false
  end.

(** Surroundings with credentials in the environment only. *)
Definition env_platform : Platform :=
  {| secrets_supabase := Val None;
     getenv := fun name =>
       if String.eqb name "SUPABASE_URL" then Some "https://db.example"%string
       else if String.eqb name "SUPABASE_ANON_KEY" then Some "anon"%string
       else None;
     create_client := fun _ _ => Val accepting_client;
     SentenceTransformer := fun _ _ => Val (mkEmbedder (fun _ => Val [(1 # 2)%Q])) |}.

(** Surroundings whose secrets have a [supabase] section without key. *)
Definition half_secret_platform : Platform :=
  {| secrets_supabase := Val (Some {[ "url"%string := "https://db.example"%string ]});
     getenv := getenv env_platform;
     create_client := fun _ _ => Val accepting_client;
     SentenceTransformer := fun _ _ => Raise "no model" |}.

Definition quiet_world2 : World2 := {| log2 := []; rng2 := fun _ => 0%Q |}.

(** The rows [store_brand_examples] sends for [examples], the first with
    index [idx]: each is the row of its example, scoped to the brand,
    with the embedding the model gives when it gives one. *)
Fixpoint calls_from (self : BrandRAG) (brand_id : option string)
    (content_type source : string) (idx : Z) (examples : list string)
    (calls : list InsertData) : Prop :=
  match examples, calls with
  | [], [] => True
  | example :: examples', d :: calls' =>
    d = insert_data example (d_embedding d) brand_id source idx
          (Some (example_metadata content_type example)) /\
    (forall model v, embedder self = Some model ->
                     encode model example = Val v -> d_embedding d = v) /\
    calls_from self brand_id content_type source (idx + 1) examples' calls'
  | _, _ => False
  end.

(** A helper over a store that refuses every insert. *)
Definition refusing_rag : BrandRAG :=
  {| embedder := Some (mkEmbedder (fun _ => Val [(1 # 2)%Q]));
     db := Some (mkManager (Some failing_client)) |}.

(** An event that reads: a printed line, an embedding of text or a
    similarity search; not an insert, not a count. *)
Definition reads_only (ev : Event) : Prop :=
  match ev with
  | EvPrint _ | EvEncode _ | EvRpc _ => True
  | EvInsert _ | EvCount _ => False
  end.

(** * Properties *)

(** ** The effect monad *)

Lemma logged_logged (w : World) (e1 e2 : list Event) :
  logged (logged w e1) e2 = logged w (e1 ++ e2).
Proof. unfold logged. simpl. now rewrite <- app_assoc. Qed.

Lemma call_run {A : Type} (ev : Event) (r : Res A) (w : World) :
  call ev r w = (r, logged w [ev]).
Proof. reflexivity. Qed.

Lemma print_run (line : LogLine) (w : World) :
  print line w = (Val tt, logged w [EvPrint line]).
Proof. reflexivity. Qed.

Lemma ret_run {A : Type} (a : A) (w : World) : ret a w = (Val a, w).
Proof. reflexivity. Qed.

(** ** supabase_client.py *)

Lemma semantic_search_run (self : SupabaseManager) (c : Client)
    (q : list Q) (org_id : option string) (limit : Z) (threshold : Q)
    (w : World) :
  client self = Some c ->
  semantic_search self q org_id limit threshold w
  = (Val (rows_of c (mkRpc q org_id threshold limit)),
     logged w (search_events c (mkRpc q org_id threshold limit))).
Proof.
  intros Hc. unfold semantic_search. rewrite Hc.
  unfold rows_of, search_events, try_except, bind, print, call, ret, logged.
  cbv zeta. simpl.
  destruct (rpc_execute c _) as [[[|row rows]|]|e]; simpl; try reflexivity.
  now rewrite <- app_assoc.
Qed.

Lemma semantic_search_disconnected (self : SupabaseManager)
    (q : list Q) (org_id : option string) (limit : Z) (threshold : Q)
    (w : World) :
  client self = None ->
  semantic_search self q org_id limit threshold w
  = (Val [], logged w [EvPrint LogNotConnected]).
Proof. intros Hc. unfold semantic_search. now rewrite Hc. Qed.

Lemma semantic_search_never_raises (self : SupabaseManager)
    (q : list Q) (org_id : option string) (limit : Z) (threshold : Q) :
  never_raises (semantic_search self q org_id limit threshold).
Proof.
  intros w. destruct (client self) as [c|] eqn:Hc.
  - rewrite (semantic_search_run self c) by exact Hc. eauto.
  - rewrite semantic_search_disconnected by exact Hc. eauto.
Qed.

Lemma count_knowledge_chunks_never_raises (self : SupabaseManager)
    (org_id : option string) :
  never_raises (count_knowledge_chunks self org_id).
Proof.
  intros w. unfold count_knowledge_chunks.
  destruct (client self) as [c|]; [|simpl; eauto].
  unfold try_except, bind. rewrite call_run.
  destruct (count_execute c org_id) as [[[n|]]|e]; simpl; eauto.
Qed.

(** C8: [semantic_search] and [count_knowledge_chunks] never raise; a
    search on a disconnected store or whose remote call fails returns the
    empty list, and a count returns 0 when the store is disconnected,
    when the remote call raises and when the response has no [count]
    attribute.  A response whose [count] attribute is [None] is not
    caught: the count returned is then [None], not 0. *)
Theorem search_and_count_on_failure
    (self : SupabaseManager) (q : list Q) (org_id : option string)
    (limit : Z) (threshold : Q) (w : World) :
  never_raises (semantic_search self q org_id limit threshold) /\
  never_raises (count_knowledge_chunks self org_id) /\
  (search_failed self (mkRpc q org_id threshold limit) = true ->
   fst (semantic_search self q org_id limit threshold w) = Val []) /\
  (count_failed self org_id = true ->
   fst (count_knowledge_chunks self org_id w) = Val (PyInt 0)) /\
  (forall c r, client self = Some c ->
     count_execute c org_id = Val r -> count_attr r = Some PyNone ->
     fst (count_knowledge_chunks self org_id w) = Val PyNone).
Proof.
  split; [apply semantic_search_never_raises|].
  split; [apply count_knowledge_chunks_never_raises|].
  unfold search_failed, count_failed, semantic_search, count_knowledge_chunks.
  destruct (client self) as [c|]; simpl.
  - unfold try_except, bind. rewrite !call_run.
    destruct (rpc_execute c _) as [[[|row rows]|]|e];
      destruct (count_execute c org_id) as [[[n|]]|e'] eqn:E; simpl;
      (split; [intros; congruence|]); (split; [intros; congruence|]);
      intros c' r [= <-] Hr Hn; rewrite E in Hr;
      first [discriminate | injection Hr as <-; cbn in Hn; congruence].
  - split; [reflexivity|]. split; [reflexivity|]. discriminate.
Qed.

Lemma search_and_count_on_failure_witness :
  fst (semantic_search (mkManager (Some failing_client)) [] None 5 (7 # 10) quiet_world)
  = Val [] /\
  fst (count_knowledge_chunks (mkManager (Some failing_client)) None quiet_world)
  = Val (PyInt 0) /\
  fst (count_knowledge_chunks (mkManager (Some countless_client)) None quiet_world)
  = Val PyNone.
Proof.
  destruct (search_and_count_on_failure
              (mkManager (Some failing_client)) [] None 5 (7 # 10) quiet_world)
    as (_ & _ & Hs & Hc & _).
  destruct (search_and_count_on_failure
              (mkManager (Some countless_client)) [] None 5 (7 # 10) quiet_world)
    as (_ & _ & _ & _ & Hnone).
  split; [apply Hs; reflexivity|]. split; [apply Hc; reflexivity|].
  apply (Hnone countless_client (mkCount (Some PyNone))); reflexivity.
Defined.

Lemma store_knowledge_chunk_run (self : SupabaseManager) (c : Client)
    (content : string) (embedding : list Q) (org_id : option string)
    (source : string) (chunk_index : Z)
    (metadata : option (gmap string PyVal)) (w : World) :
  client self = Some c ->
  let data := insert_data content embedding org_id source chunk_index metadata in
  store_knowledge_chunk self content embedding org_id source chunk_index metadata w
  = (Val match insert_execute c data with
         | Val (Some (row :: _)) => StoreOk (row_id row)
         | Val _ => StoreErr "No data returned"
         | Raise e => StoreErr e
         end,
     logged w [EvInsert data]).
Proof.
  intros Hc data. unfold store_knowledge_chunk. rewrite Hc.
  unfold try_except, bind, call, ret, logged. cbv zeta. fold data.
  destruct (insert_execute c data) as [[[|row rows]|]|e]; reflexivity.
Qed.

(** C7: [store_knowledge_chunk] never raises.  Without a client it returns
    the failure "Not connected to Supabase"; when the remote insert yields
    no row it returns a failure ("No data returned" for missing or empty
    data, the exception's text when the call raised); otherwise it returns
    success with the id of the first returned row. *)
Theorem store_knowledge_chunk_result
    (self : SupabaseManager) (content : string) (embedding : list Q)
    (org_id : option string) (source : string) (chunk_index : Z)
    (metadata : option (gmap string PyVal)) (w : World) :
  let data := insert_data content embedding org_id source chunk_index metadata in
  let result :=
    fst (store_knowledge_chunk self content embedding org_id source
           chunk_index metadata w) in
  never_raises (store_knowledge_chunk self content embedding org_id source
                  chunk_index metadata) /\
  (client self = None ->
   result = Val (StoreErr "Not connected to Supabase")) /\
  (forall c, client self = Some c ->
     match insert_execute c data with
     | Val (Some (row :: _)) => result = Val (StoreOk (row_id row))
     | Val _ => result = Val (StoreErr "No data returned")
     | Raise e => result = Val (StoreErr e)
     end) /\
  (forall r, result = Val r ->
     success r = true <->
     exists c row rows, client self = Some c /\
                        insert_execute c data = Val (Some (row :: rows))).
Proof.
  intros data result. subst result.
  split.
  { intros w'. destruct (client self) as [c|] eqn:Hc.
    - rewrite (store_knowledge_chunk_run self c) by exact Hc. eauto.
    - unfold store_knowledge_chunk. rewrite Hc. simpl. eauto. }
  destruct (client self) as [c|] eqn:Hc.
  - rewrite (store_knowledge_chunk_run self c) by exact Hc. fold data. simpl.
    split; [discriminate|]. split.
    + intros c' [= <-].
      destruct (insert_execute c data) as [[[|row rows]|]|e]; reflexivity.
    + intros r [= <-].
      destruct (insert_execute c data) as [[[|row rows]|]|e] eqn:E; simpl;
        (split; [first [discriminate | eauto 6] |]);
        intros (c' & row' & rows' & Hc' & Hr);
        first [reflexivity | injection Hc' as <-; congruence].
  - unfold store_knowledge_chunk. rewrite Hc. simpl.
    split; [reflexivity|]. split; [discriminate|].
    intros r [= <-]. simpl. split; [discriminate|].
    intros (c' & ? & ? & Hn & _). discriminate.
Qed.

Lemma store_knowledge_chunk_result_witness :
  fst (store_knowledge_chunk (mkManager None) "copy" [] None "brief.pdf" 0 None
         quiet_world)
  = Val (StoreErr "Not connected to Supabase") /\
  fst (store_knowledge_chunk (mkManager (Some accepting_client)) "copy" []
         None "brief.pdf" 0 None quiet_world)
  = Val (StoreOk (PyInt 42)) /\
  fst (store_knowledge_chunk (mkManager (Some failing_client)) "copy" []
         None "brief.pdf" 0 None quiet_world)
  = Val (StoreErr "connection reset").
Proof.
  split; [|split].
  - apply (store_knowledge_chunk_result (mkManager None)). reflexivity.
  - apply (proj1 (proj2 (proj2 (store_knowledge_chunk_result
             (mkManager (Some accepting_client)) "copy" [] None "brief.pdf" 0
             None quiet_world))) accepting_client). reflexivity.
  - apply (proj1 (proj2 (proj2 (store_knowledge_chunk_result
             (mkManager (Some failing_client)) "copy" [] None "brief.pdf" 0
             None quiet_world))) failing_client). reflexivity.
Defined.

(** C10: after a successful [store_knowledge_chunk] the row sent to the
    store carries the caller's metadata (the empty dictionary when the
    caller gave none) with "source" and "chunk_index" set to the arguments:
    those two keys are overridden, every other key is kept, and without
    caller metadata the dictionary holds exactly those two keys. *)
Theorem stored_metadata
    (self : SupabaseManager) (content : string) (embedding : list Q)
    (org_id : option string) (source : string) (chunk_index : Z)
    (metadata : option (gmap string PyVal)) (w : World) (id : PyVal) :
  fst (store_knowledge_chunk self content embedding org_id source
         chunk_index metadata w) = Val (StoreOk id) ->
  exists data : InsertData,
    log (snd (store_knowledge_chunk self content embedding org_id source
                chunk_index metadata w)) = log w ++ [EvInsert data] /\
    d_metadata data !! "source"%string = Some (PyStr source) /\
    d_metadata data !! "chunk_index"%string = Some (PyInt chunk_index) /\
    (forall k : string, k <> "source"%string -> k <> "chunk_index"%string ->
       d_metadata data !! k = default ∅ metadata !! k) /\
    (default ∅ metadata = ∅ ->
       d_metadata data
       = {[ "source"%string := PyStr source;
            "chunk_index"%string := PyInt chunk_index ]}).
Proof.
  intros Hok.
  destruct (client self) as [c|] eqn:Hc.
  2:{ unfold store_knowledge_chunk in Hok. rewrite Hc in Hok. discriminate. }
  rewrite (store_knowledge_chunk_run self c) by exact Hc.
  exists (insert_data content embedding org_id source chunk_index metadata).
  split; [reflexivity|].
  assert (Hfull : d_metadata (insert_data content embedding org_id source
                                chunk_index metadata)
                  = <["chunk_index"%string := PyInt chunk_index]>
                      (<["source"%string := PyStr source]> (default ∅ metadata))).
  { unfold insert_data, full_metadata. simpl.
    destruct metadata as [m|]; simpl; [|reflexivity].
    destruct (decide (m = ∅)) as [->|]; reflexivity. }
  rewrite Hfull. repeat split.
  - rewrite lookup_insert_ne by discriminate. apply lookup_insert_eq.
  - apply lookup_insert_eq.
  - intros k Hs Hi. rewrite !lookup_insert_ne by congruence. reflexivity.
  - intros ->. rewrite insert_insert_ne by discriminate. reflexivity.
Qed.

Lemma stored_metadata_witness :
  exists data : InsertData,
    log (snd (store_knowledge_chunk (mkManager (Some accepting_client))
                "copy" [] (Some "brandA"%string) "brief.pdf" 2
                (Some {[ "source"%string := PyStr "caller";
                         "length"%string := PyInt 4 ]}) quiet_world))
    = [EvInsert data] /\
    d_metadata data !! "source"%string = Some (PyStr "brief.pdf") /\
    d_metadata data !! "chunk_index"%string = Some (PyInt 2) /\
    d_metadata data !! "length"%string = Some (PyInt 4).
Proof.
  destruct (stored_metadata (mkManager (Some accepting_client))
              "copy" [] (Some "brandA"%string) "brief.pdf" 2
              (Some {[ "source"%string := PyStr "caller";
                       "length"%string := PyInt 4 ]}) quiet_world (PyInt 42)
              eq_refl)
    as (data & Hlog & Hs & Hi & Hk & _).
  exists data. repeat split; try assumption.
  rewrite Hk by discriminate. reflexivity.
Defined.

(** ** brand_rag.py *)

Lemma create_embedding_run (self : BrandRAG) (text : string) (w : World) :
  create_embedding self text w
  = match embedder self with
    | None =>
      (Val (map (rng w) (seq 0 embedding_dim)),
       drawn (logged w [EvPrint LogRandomFallback]) embedding_dim)
    | Some model =>
      match encode model text with
      | Val v => (Val v, logged w [EvEncode text])
      | Raise e =>
        (Val (map (rng w) (seq 0 embedding_dim)),
         drawn (logged w [EvEncode text; EvPrint (LogEmbeddingFailed e)])
           embedding_dim)
      end
    end.
Proof.
  unfold create_embedding. destruct (embedder self) as [model|].
  - unfold try_except, bind, print, call, ret, random_rand, drawn, logged.
    destruct (encode model text) as [v|e]; simpl; [reflexivity|].
    now rewrite <- app_assoc.
  - reflexivity.
Qed.

Lemma create_embedding_returns (self : BrandRAG) (text : string) (w : World) :
  exists v w', create_embedding self text w = (Val v, w') /\
               rpc_calls (log w') = rpc_calls (log w).
Proof.
  rewrite create_embedding_run.
  destruct (embedder self) as [model|]; [destruct (encode model text)|];
    eexists; eexists; (split; [reflexivity|]); cbn [log logged drawn];
    unfold rpc_calls; rewrite omap_app; cbn [omap]; now rewrite app_nil_r.
Qed.

(** C6 (as the code has it): [create_embedding] never raises; when the
    model did not load, and when encoding raises, it returns the next 384
    numbers of the random generator and prints a warning.  The returned
    list carries nothing else. *)
Theorem create_embedding_fallback (self : BrandRAG) (text : string) (w : World) :
  let out := create_embedding self text w in
  never_raises (create_embedding self text) /\
  (degraded self text = true ->
   exists v, fst out = Val v /\ length v = 384%nat /\
             v = map (rng w) (seq 0 384)) /\
  (embedder self = None ->
   log (snd out) = log w ++ [EvPrint LogRandomFallback]) /\
  (forall model e, embedder self = Some model -> encode model text = Raise e ->
   log (snd out) = log w ++ [EvEncode text; EvPrint (LogEmbeddingFailed e)]).
Proof.
  intros out. subst out. split.
  { intros w'. destruct (create_embedding_returns self text w')
      as (v & w1 & -> & _). eauto. }
  rewrite create_embedding_run. unfold degraded.
  destruct (embedder self) as [model|].
  - destruct (encode model text) as [v|e] eqn:E; cbn [fst snd log logged drawn].
    + split; [discriminate|]. split; [discriminate|].
      intros model' e' [= <-]. congruence.
    + split.
      * intros _. eexists. split; [reflexivity|]. split; [|reflexivity].
        rewrite length_map, length_seq. reflexivity.
      * split; [discriminate|]. intros model' e' [= <-]. congruence.
  - cbn [fst snd log logged drawn]. split.
    + intros _. eexists. split; [reflexivity|]. split; [|reflexivity].
      rewrite length_map, length_seq. reflexivity.
    + split; [reflexivity | discriminate].
Qed.

Lemma create_embedding_fallback_witness :
  exists v, fst (create_embedding offline_rag "launch" quiet_world) = Val v /\
            length v = 384%nat /\ v = map (rng quiet_world) (seq 0 384).
Proof.
  apply (create_embedding_fallback offline_rag "launch" quiet_world).
  reflexivity.
Defined.

(** C6 (as stated) fails: no test on the returned list tells a placeholder
    from a real embedding, since a model may return the very list the
    random generator yields. *)
Lemma create_embedding_result_carries_no_marker :
  ~ exists flag : list Q -> bool,
      forall (self : BrandRAG) (text : string) (w : World) (v : list Q),
        fst (create_embedding self text w) = Val v ->
        flag v = degraded self text.
Proof.
  intros [flag Hflag].
  pose (v := map (rng quiet_world) (seq 0 embedding_dim)).
  pose (real := {| embedder := Some (mkEmbedder (fun _ => Val v)); db := None |}).
  assert (H1 : flag v = true).
  { apply (Hflag offline_rag "launch"%string quiet_world). reflexivity. }
  assert (H2 : flag v = false).
  { apply (Hflag real "launch"%string quiet_world). reflexivity. }
  congruence.
Qed.

(** C3: without a store ([db] unset or not connected) the call returns
    the three default examples, whatever [top_k] is, and does nothing but
    print one line: no embedding, no search. *)
Theorem retrieve_without_store
    (self : BrandRAG) (brand_id : option string) (query : string)
    (top_k : Z) (include_platform : bool) (w : World) :
  db self = None \/ (exists d, db self = Some d /\ is_connected d = false) ->
  retrieve_brand_context self brand_id query top_k include_platform w
  = (Val _get_default_examples, logged w [EvPrint LogSupabaseUnavailable]) /\
  length _get_default_examples = 3%nat /\
  rng (snd (retrieve_brand_context self brand_id query top_k include_platform w))
  = rng w /\
  rpc_calls (log (snd (retrieve_brand_context self brand_id query top_k
                         include_platform w))) = rpc_calls (log w) /\
  encode_calls (log (snd (retrieve_brand_context self brand_id query top_k
                            include_platform w))) = encode_calls (log w).
Proof.
  intros Hdb.
  assert (Hrun : retrieve_brand_context self brand_id query top_k include_platform w
                 = (Val _get_default_examples,
                    logged w [EvPrint LogSupabaseUnavailable])).
  { unfold retrieve_brand_context, available_db.
    destruct Hdb as [-> | (d & -> & ->)]; reflexivity. }
  rewrite Hrun. simpl. unfold rpc_calls, encode_calls.
  rewrite !omap_app. simpl. rewrite !app_nil_r. auto.
Qed.

Lemma retrieve_without_store_witness :
  retrieve_brand_context offline_rag (Some "brandA"%string) "launch" 1 true
    quiet_world
  = (Val _get_default_examples,
     logged quiet_world [EvPrint LogSupabaseUnavailable]).
Proof.
  apply (retrieve_without_store offline_rag (Some "brandA"%string) "launch" 1
           true quiet_world).
  left. reflexivity.
Defined.

Lemma available_db_connected (self : BrandRAG) (d : SupabaseManager) (c : Client) :
  db self = Some d -> client d = Some c -> available_db self = Some d.
Proof.
  intros Hd Hc. unfold available_db, is_connected. now rewrite Hd, Hc.
Qed.

Lemma rpc_calls_app (e1 e2 : list Event) :
  rpc_calls (e1 ++ e2) = rpc_calls e1 ++ rpc_calls e2.
Proof. apply omap_app. Qed.

Lemma rpc_calls_search_events (c : Client) (p : RpcParams) :
  rpc_calls (search_events c p) = [p].
Proof.
  unfold search_events. destruct (rpc_execute c p); reflexivity.
Qed.

(** Closes a branch of the run once the searches are done: the last print
    and return, then the searches among the logged events. *)
Ltac close_run :=
  rewrite print_run, ret_run; cbn [fst snd];
  (split; [reflexivity|]); rewrite ?logged_logged; cbn [log logged];
  rewrite !rpc_calls_app, ?rpc_calls_search_events; cbn;
  rewrite ?app_nil_r; reflexivity.

(** The whole run on a connected store: the value returned and the
    searches made, from the query embedding [q]. *)
Lemma retrieve_brand_context_run
    (self : BrandRAG) (d : SupabaseManager) (c : Client)
    (brand_id : option string) (query : string) (top_k : Z)
    (include_platform : bool) (w w1 : World) (q : list Q) :
  db self = Some d -> client d = Some c ->
  create_embedding self query w = (Val q, w1) ->
  let brand := brand_rows c q brand_id top_k in
  let platform := platform_rows c q include_platform top_k brand in
  let out := retrieve_brand_context self brand_id query top_k include_platform w in
  fst out = Val (if nonempty (brand ++ platform)
                 then map content (slice_to top_k (brand ++ platform))
                 else _get_default_examples) /\
  rpc_calls (log (snd out))
  = rpc_calls (log w1)
    ++ (if truthy_str brand_id then [brand_params q brand_id top_k] else [])
    ++ (if platform_wanted include_platform top_k brand
        then [platform_params q top_k brand] else []).
Proof.
  intros Hd Hc Hq brand platform out. subst out.
  unfold retrieve_brand_context.
  rewrite (available_db_connected self d c Hd Hc).
  unfold try_except, bind. rewrite Hq.
  subst platform brand. unfold platform_rows, brand_rows, platform_wanted.
  destruct (truthy_str brand_id).
  - rewrite (semantic_search_run d c) by exact Hc.
    fold (brand_params q brand_id top_k).
    set (brand := rows_of c (brand_params q brand_id top_k)).
    rewrite print_run, ret_run. cbn [app].
    destruct (include_platform && (Z.of_nat (length brand) <? top_k)).
    + rewrite (semantic_search_run d c) by exact Hc.
      fold (platform_params q top_k brand).
      set (platform := rows_of c (platform_params q top_k brand)).
      rewrite print_run, ret_run.
      destruct (nonempty (brand ++ platform)); close_run.
    + cbv beta iota. rewrite ret_run, app_nil_r.
      destruct (nonempty brand); close_run.
  - cbv beta iota. rewrite ret_run. cbn [app].
    destruct (include_platform && (Z.of_nat (length (@nil Row)) <? top_k)).
    + rewrite (semantic_search_run d c) by exact Hc.
      fold (platform_params q top_k []).
      set (platform := rows_of c (platform_params q top_k [])).
      rewrite print_run, ret_run. cbn [app].
      destruct (nonempty platform); close_run.
    + rewrite ret_run. cbn [nonempty app]. close_run.
Qed.

Lemma nonempty_false {A : Type} (l : list A) : nonempty l = false <-> l = [].
Proof. destruct l; simpl; split; congruence. Qed.

Lemma nonempty_true {A : Type} (l : list A) : nonempty l = true <-> l <> [].
Proof. destruct l; simpl; split; congruence. Qed.

Lemma slice_to_take {A : Type} (k : Z) (l : list A) :
  0 <= k -> slice_to k l = take (Z.to_nat k) l.
Proof. intros Hk. unfold slice_to. now rewrite (proj2 (Z.leb_le 0 k) Hk). Qed.

Lemma slice_to_length {A : Type} (k : Z) (l : list A) :
  0 <= k -> Z.of_nat (length (slice_to k l)) <= k.
Proof. intros Hk. rewrite slice_to_take, length_take by exact Hk. lia. Qed.

(** C2: on a connected store the accumulator is the brand results followed
    by the platform results; when it is not empty the call returns the
    [content] of [accumulator[:top_k]], its first [top_k] entries in that
    order; when it is empty the call returns the default examples. *)
Theorem retrieve_returns_first_top_k
    (self : BrandRAG) (d : SupabaseManager) (c : Client)
    (brand_id : option string) (query : string) (top_k : Z)
    (include_platform : bool) (w : World) :
  db self = Some d -> client d = Some c ->
  exists (q : list Q) (w1 : World),
    create_embedding self query w = (Val q, w1) /\
    let brand := brand_rows c q brand_id top_k in
    let platform := platform_rows c q include_platform top_k brand in
    let accumulator := brand ++ platform in
    let returned :=
      fst (retrieve_brand_context self brand_id query top_k include_platform w) in
    (accumulator <> [] ->
     returned = Val (map content (slice_to top_k accumulator))) /\
    (0 <= top_k ->
     slice_to top_k accumulator = take (Z.to_nat top_k) accumulator) /\
    (accumulator = [] -> returned = Val _get_default_examples).
Proof.
  intros Hd Hc.
  destruct (create_embedding_returns self query w) as (q & w1 & Hq & _).
  exists q, w1. split; [exact Hq|].
  destruct (retrieve_brand_context_run self d c brand_id query top_k
              include_platform w w1 q Hd Hc Hq) as [Hval _].
  cbv zeta. rewrite Hval. repeat split.
  - intros Hne. apply nonempty_true in Hne. now rewrite Hne.
  - apply slice_to_take.
  - intros He. apply nonempty_false in He. now rewrite He.
Qed.

Lemma retrieve_returns_first_top_k_witness :
  fst (retrieve_brand_context demo_rag (Some "brandA"%string) "launch" 3 true
         quiet_world)
  = Val ["brandA first"; "brandA second"; "platform tip"]%string.
Proof.
  destruct (retrieve_returns_first_top_k demo_rag
              (mkManager (Some demo_client)) demo_client
              (Some "brandA"%string) "launch" 3 true quiet_world
              eq_refl eq_refl) as (q & w1 & _ & Hne & _ & _).
  rewrite Hne; [reflexivity | discriminate].
Defined.

(** C1 (as the code has it): with [include_platform] set, a connected
    store and [top_k >= 0], the platform search is made exactly when the
    brand results are fewer than [top_k], with limit [top_k] minus their
    number; with at least [top_k] brand results no platform row is
    included; the call returns at most [top_k] items when some row was
    found, and the default examples, whatever [top_k], when none was. *)
Theorem retrieve_platform_policy
    (self : BrandRAG) (d : SupabaseManager) (c : Client)
    (brand_id : option string) (query : string) (top_k : Z) (w : World) :
  db self = Some d -> client d = Some c -> 0 <= top_k ->
  exists (q : list Q) (w1 : World) (items : list string),
    create_embedding self query w = (Val q, w1) /\
    let brand := brand_rows c q brand_id top_k in
    let platform := platform_rows c q true top_k brand in
    let out := retrieve_brand_context self brand_id query top_k true w in
    fst out = Val items /\
    rpc_calls (log (snd out))
    = rpc_calls (log w)
      ++ (if truthy_str brand_id
          then [mkRpc q brand_id search_threshold top_k] else [])
      ++ (if Z.of_nat (length brand) <? top_k
          then [mkRpc q None search_threshold (top_k - Z.of_nat (length brand))]
          else []) /\
    (top_k <= Z.of_nat (length brand) ->
     platform = [] /\
     (brand <> [] -> items = map content (take (Z.to_nat top_k) brand))) /\
    (brand ++ platform <> [] -> Z.of_nat (length items) <= top_k) /\
    (brand ++ platform = [] -> items = _get_default_examples).
Proof.
  intros Hd Hc Hk.
  destruct (create_embedding_returns self query w) as (q & w1 & Hq & Hlog).
  destruct (retrieve_brand_context_run self d c brand_id query top_k
              true w w1 q Hd Hc Hq) as [Hval Hcalls].
  exists q, w1. eexists. split; [exact Hq|]. cbv zeta.
  split; [exact Hval|]. split; [|split; [|split]].
  - rewrite Hcalls, Hlog. reflexivity.
  - intros Hfull.
    assert (Hp : platform_rows c q true top_k (brand_rows c q brand_id top_k) = []).
    { unfold platform_rows, platform_wanted.
      rewrite (proj2 (Z.ltb_ge _ _) Hfull). reflexivity. }
    split; [exact Hp|]. intros Hne.
    rewrite Hp, app_nil_r, (proj2 (nonempty_true _) Hne).
    now rewrite slice_to_take.
  - intros Hne. rewrite (proj2 (nonempty_true _) Hne), length_map.
    now apply slice_to_length.
  - intros He. now rewrite (proj2 (nonempty_false _) He).
Qed.

Lemma retrieve_platform_policy_witness :
  exists items : list string,
    fst (retrieve_brand_context demo_rag (Some "brandA"%string) "launch" 2 true
           quiet_world) = Val items /\
    Z.of_nat (length items) <= 2.
Proof.
  destruct (retrieve_platform_policy demo_rag
              (mkManager (Some demo_client)) demo_client
              (Some "brandA"%string) "launch" 2 quiet_world
              eq_refl eq_refl ltac:(lia))
    as (q & w1 & items & _ & Hval & _ & _ & Hbound & _).
  exists items. split; [exact Hval|]. apply Hbound. discriminate.
Defined.

(** C1 (as stated) fails: when both searches find nothing the three
    default examples are returned, more than [top_k = 1]. *)
Lemma retrieve_exceeds_top_k :
  fst (retrieve_brand_context empty_store_rag (Some "brandA"%string) "launch"
         1 true quiet_world) = Val _get_default_examples /\
  available_db empty_store_rag = Some (mkManager (Some accepting_client)) /\
  ~ (Z.of_nat (length _get_default_examples) <= 1).
Proof.
  split; [reflexivity|]. split; [reflexivity|]. simpl. lia.
Qed.

(** The scenario of the specification: two brand chunks, one platform
    chunk, [top_k = 2]: both items are the brand's and the platform search
    is not made. *)
Example retrieve_brand_only_scenario :
  let out := retrieve_brand_context demo_rag (Some "brandA"%string) "launch"
               2 true quiet_world in
  fst out = Val ["brandA first"; "brandA second"]%string /\
  rpc_calls (log (snd out))
  = [mkRpc [(1 # 2)%Q] (Some "brandA"%string) search_threshold 2].
Proof. split; reflexivity. Qed.

(** ** main.py: text operations *)



Lemma lstrip_idem (s : pystr) : lstrip (lstrip s) = lstrip s.
Proof.
  induction s as [|c s IH]; simpl; [reflexivity|].
  destruct (isspace c) eqn:E; [exact IH|]. simpl. now rewrite E.
Qed.

Lemma lstrip_suffix (s : pystr) : exists u, s = u ++ lstrip s.
Proof.
  induction s as [|c s [u Hu]]; simpl.
  - now exists [].
  - destruct (isspace c).
    + exists (c :: u). simpl. now rewrite <- Hu.
    + now exists [].
Qed.

Lemma lstrip_app_keep (s x : pystr) :
  s <> [] -> lstrip s = s -> lstrip (s ++ x) = s ++ x.
Proof.
  destruct s as [|c s]; [congruence|]. simpl. intros _ H.
  destruct (isspace c) eqn:E; [|reflexivity].
  exfalso. destruct (lstrip_suffix s) as [u Hu].
  rewrite H in Hu. apply (f_equal (@length N)) in Hu.
  rewrite length_app in Hu. simpl in Hu. lia.
Qed.

Lemma lstrip_head (c : N) (s : pystr) :
  lstrip (c :: s) = c :: s -> isspace c = false.
Proof.
  simpl. destruct (isspace c) eqn:E; [|reflexivity]. intros H.
  exfalso. destruct (lstrip_suffix s) as [u Hu].
  rewrite H in Hu. apply (f_equal (@length N)) in Hu.
  rewrite length_app in Hu. simpl in Hu. lia.
Qed.

Lemma lstrip_snoc (s : pystr) (c : N) :
  isspace c = false -> lstrip (s ++ [c]) = lstrip s ++ [c].
Proof.
  intros Hc. induction s as [|d s IH]; simpl.
  - now rewrite Hc.
  - destruct (isspace d); [exact IH | reflexivity].
Qed.


Lemma rstrip_cons_keep (c : N) (s : pystr) :
  isspace c = false -> rstrip (c :: s) = c :: rstrip s.
Proof.
  intros Hc. unfold rstrip. simpl.
  rewrite lstrip_snoc by exact Hc. rewrite rev_app_distr. reflexivity.
Qed.

Lemma rstrip_prefix (s : pystr) : exists t, s = rstrip s ++ t.
Proof.
  unfold rstrip. destruct (lstrip_suffix (rev s)) as [u Hu].
  exists (rev u). rewrite <- rev_app_distr, <- Hu. now rewrite rev_involutive.
Qed.

Lemma strip_in (s : pystr) (x : N) : In x (strip s) -> In x s.
Proof.
  unfold strip. intros H.
  destruct (rstrip_prefix (lstrip s)) as [t Ht].
  destruct (lstrip_suffix s) as [u Hu].
  rewrite Hu, Ht. apply in_or_app. right. apply in_or_app. now left.
Qed.

Lemma strip_tight (s : pystr) : strip s <> [] -> tight (strip s).
Proof.
  intros Hne. split; [exact Hne|]. split.
  - unfold strip in *. pose proof (lstrip_idem s) as Hi.
    destruct (lstrip s) as [|c t] eqn:E; [reflexivity|].
    pose proof (lstrip_head c t Hi) as Hc.
    rewrite rstrip_cons_keep by exact Hc. simpl. now rewrite Hc.
  - unfold strip, rstrip. rewrite rev_involutive. apply lstrip_idem.
Qed.

Lemma tight_strip (s : pystr) : tight s -> strip s = s.
Proof.
  intros (_ & Hl & Hr). unfold strip, rstrip. rewrite Hl, Hr.
  apply rev_involutive.
Qed.

Lemma strip_idem (s : pystr) : strip (strip s) = strip s.
Proof.
  destruct (strip s) as [|c t] eqn:E; [reflexivity|].
  rewrite <- E. apply tight_strip, strip_tight. now rewrite E.
Qed.

Lemma remove_nul_in (s : pystr) (x : N) : In x (remove_nul s) -> In x s /\ x <> NUL.
Proof.
  unfold remove_nul. rewrite filter_In. intros [H Hx]. split; [exact H|].
  apply negb_true_iff, N.eqb_neq in Hx. exact Hx.
Qed.

Lemma remove_nul_free (s : pystr) : ~ In NUL (remove_nul s).
Proof. intros H. apply remove_nul_in in H. now destruct H. Qed.

Lemma remove_nul_id (s : pystr) : ~ In NUL s -> remove_nul s = s.
Proof.
  induction s as [|c s IH]; simpl; [reflexivity|]. intros H.
  destruct (N.eqb_spec c NUL) as [->|Hc]; simpl.
  - exfalso. apply H. now left.
  - f_equal. apply IH. intros Hin. apply H. now right.
Qed.

(** ** main.py: the chunking loop *)

Lemma flush_emit (chunks : list pystr) (buffer : pystr) :
  flush chunks buffer = chunks ++ emit buffer.
Proof.
  unfold flush, emit. destruct (strip buffer) as [|c t].
  - simpl. now rewrite app_nil_r.
  - cbn [nonempty]. cbv zeta.
    destruct (nonempty (remove_nul (c :: t))); [reflexivity|].
    now rewrite app_nil_r.
Qed.

Lemma chunk_loop (pieces : list pystr) (chunks : list pystr) (buffer : pystr) :
  (let '(cs, b) := fold_left chunk_step pieces (chunks, buffer) in flush cs b)
  = chunks ++ accumulate 500 buffer (List.filter nonempty (map strip pieces)).
Proof.
  revert chunks buffer.
  induction pieces as [|piece pieces IH]; intros chunks buffer; simpl.
  - apply flush_emit.
  - destruct (nonempty (strip piece)) eqn:Hp; simpl.
    + rewrite Z.leb_antisym.
      destruct (len buffer + len (strip piece) <? 500); simpl.
      * apply IH.
      * rewrite IH, flush_emit, <- app_assoc. reflexivity.
    + apply IH.
Qed.

Lemma chunk_text_accumulate (text : pystr) :
  chunk_text text = accumulate 500 [] (paragraphs text).
Proof.
  unfold chunk_text, paragraphs. apply (chunk_loop (split_blank text) [] []).
Qed.

(** C4: the chunking loop is the greedy accumulation over the stripped
    paragraphs between blank lines: a paragraph [p] is appended to the
    buffer (with a blank line) when [len(buffer) + len(p) < 500], the
    lengths being taken before the append, and otherwise the buffer is
    flushed as one chunk and [p] starts the next buffer; the remaining
    buffer is flushed at the end.  Chunks may be longer than 500. *)
Theorem chunk_text_is_greedy_accumulation :
  (forall text : pystr, chunk_text text = accumulate 500 [] (paragraphs text)) /\
  (forall (buffer p : pystr) (rest : list pystr),
     accumulate 500 buffer (p :: rest)
     = if len buffer + len p <? 500
       then accumulate 500 (buffer ++ p ++ [LF; LF]) rest
       else emit buffer ++ accumulate 500 (p ++ [LF; LF]) rest) /\
  (forall buffer : pystr, accumulate 500 buffer [] = emit buffer) /\
  (exists (text c : pystr), In c (chunk_text text) /\ 500 < len c).
Proof.
  split; [|split; [|split]].
  - apply chunk_text_accumulate.
  - intros buffer p rest. simpl. rewrite Z.leb_antisym.
    now destruct (len buffer + len p <? 500).
  - reflexivity.
  - exists long_text, long_text. split; [|reflexivity].
    vm_compute. now left.
Qed.

(** Induction following [split_blank], which looks two characters ahead. *)
Lemma pystr_ind2 (P : pystr -> Prop) :
  P [] -> (forall c, P [c]) ->
  (forall c d s, P s -> P (d :: s) -> P (c :: d :: s)) ->
  forall s, P s.
Proof.
  intros H0 H1 H2 s.
  assert (H : P s /\ forall c, P (c :: s)).
  { induction s as [|d s [IHs IHc]]; [now split|].
    split; [apply IHc|]. intros c. apply H2; [exact IHs | apply IHc]. }
  apply H.
Qed.

Lemma split_blank_cons2 (c d : N) (s : pystr) :
  split_blank (c :: d :: s)
  = if ((c =? LF) && (d =? LF))%N then [] :: split_blank s
    else push c (split_blank (d :: s)).
Proof. reflexivity. Qed.

Lemma split_blank_not_nil (s : pystr) : split_blank s <> [].
Proof.
  induction s as [| c | c d s IHs IHd] using pystr_ind2; try discriminate.
  rewrite split_blank_cons2. destruct ((c =? LF) && (d =? LF))%N; [discriminate|].
  destruct (split_blank (d :: s)); [contradiction | discriminate].
Qed.

Lemma push_app (c : N) (l1 l2 : list pystr) :
  l1 <> [] -> push c (l1 ++ l2) = push c l1 ++ l2.
Proof. destruct l1; [contradiction | reflexivity]. Qed.

(** The first piece of a text starts with its first character, unless the
    text starts with a blank line. *)
Lemma split_blank_head (d : N) (s : pystr) :
  exists q qs, split_blank (d :: s) = q :: qs /\ (q = [] \/ exists q', q = d :: q').
Proof.
  destruct s as [|e s].
  - exists [d], []. split; [reflexivity|]. right. now exists [].
  - rewrite split_blank_cons2. destruct ((d =? LF) && (e =? LF))%N.
    + exists [], (split_blank s). split; [reflexivity | now left].
    + destruct (split_blank (e :: s)) as [|q qs] eqn:E.
      * now apply split_blank_not_nil in E.
      * exists (d :: q), qs. split; [reflexivity|]. right. now exists q.
Qed.

Lemma split_blank_in (s q : pystr) (x : N) :
  In q (split_blank s) -> In x q -> In x s.
Proof.
  revert q. induction s as [| c | c d s IHs IHd] using pystr_ind2; intros q.
  - simpl. intros [<-|[]] [].
  - simpl. intros [<-|[]] H. exact H.
  - rewrite split_blank_cons2. destruct ((c =? LF) && (d =? LF))%N.
    + intros [<-|Hq] Hx; [destruct Hx|]. right. right. eapply IHs; eauto.
    + destruct (split_blank (d :: s)) as [|q0 qs] eqn:E.
      * now apply split_blank_not_nil in E.
      * simpl. intros [<-|Hq] Hx.
        -- destruct Hx as [<-|Hx]; [now left|]. right.
           apply (IHd q0); [now left | exact Hx].
        -- right. apply (IHd q); [now right | exact Hx].
Qed.

Lemma split_blank_pieces_blank_free (s : pystr) :
  Forall (fun q => has_blank q = false) (split_blank s).
Proof.
  induction s as [| c | c d s IHs IHd] using pystr_ind2.
  - repeat constructor.
  - repeat constructor.
  - rewrite split_blank_cons2. destruct ((c =? LF) && (d =? LF))%N eqn:Hcd.
    + constructor; [reflexivity | exact IHs].
    + destruct (split_blank_head d s) as (q & qs & E & Hq).
      rewrite E in *. simpl. inversion IHd as [|? ? Hq0 Hqs]; subst.
      constructor; [|exact Hqs].
      destruct Hq as [->|[q' ->]]; [reflexivity|].
      change (has_blank (c :: d :: q'))
        with (((c =? LF) && (d =? LF))%N || has_blank (d :: q')).
      now rewrite Hcd, Hq0.
Qed.

Lemma has_blank_cons (c : N) (s : pystr) :
  has_blank (c :: s) = false -> has_blank s = false.
Proof.
  destruct s as [|d s]; [reflexivity|].
  change (has_blank (c :: d :: s))
    with (((c =? LF) && (d =? LF))%N || has_blank (d :: s)).
  intros H. now apply orb_false_iff in H.
Qed.

Lemma has_blank_suffix (u s : pystr) :
  has_blank (u ++ s) = false -> has_blank s = false.
Proof.
  induction u as [|c u IH]; simpl app; [auto|].
  intros H. apply IH. now apply has_blank_cons in H.
Qed.

Lemma has_blank_prefix (s t : pystr) :
  has_blank (s ++ t) = false -> has_blank s = false.
Proof.
  induction s as [| c | c d s IHs IHd] using pystr_ind2; try reflexivity.
  change (has_blank ((c :: d :: s) ++ t))
    with (((c =? LF) && (d =? LF))%N || has_blank ((d :: s) ++ t)).
  change (has_blank (c :: d :: s))
    with (((c =? LF) && (d =? LF))%N || has_blank (d :: s)).
  intros H. apply orb_false_iff in H as [H1 H2].
  now rewrite H1, (IHd H2).
Qed.

Lemma has_blank_strip (s : pystr) :
  has_blank s = false -> has_blank (strip s) = false.
Proof.
  intros H. unfold strip.
  destruct (lstrip_suffix s) as [u Hu].
  destruct (rstrip_prefix (lstrip s)) as [t Ht].
  rewrite Hu in H. apply has_blank_suffix in H.
  rewrite Ht in H. now apply has_blank_prefix in H.
Qed.

Lemma blank_free_split (s : pystr) : has_blank s = false -> split_blank s = [s].
Proof.
  induction s as [| c | c d s IHs IHd] using pystr_ind2; try reflexivity.
  change (has_blank (c :: d :: s))
    with (((c =? LF) && (d =? LF))%N || has_blank (d :: s)).
  intros H. apply orb_false_iff in H as [H1 H2].
  rewrite split_blank_cons2, H1, (IHd H2). reflexivity.
Qed.

(** A blank line after a character other than a line feed separates what
    is before it from what is after it. *)
Lemma split_blank_app (a : pystr) (x : N) (b : pystr) :
  x <> LF ->
  split_blank (a ++ x :: LF :: LF :: b) = split_blank (a ++ [x]) ++ split_blank b.
Proof.
  intros Hx. apply N.eqb_neq in Hx.
  assert (Hbase : split_blank (x :: LF :: LF :: b) = [x] :: split_blank b).
  { rewrite split_blank_cons2, Hx. simpl andb. cbv iota.
    change (split_blank (LF :: LF :: b)) with ([] :: split_blank b).
    reflexivity. }
  induction a as [| c | c d a IHa IHd] using pystr_ind2.
  - exact Hbase.
  - change (split_blank (c :: x :: LF :: LF :: b)
            = split_blank (c :: x :: []) ++ split_blank b).
    rewrite (split_blank_cons2 c x), (split_blank_cons2 c x []).
    rewrite Hx, andb_false_r, Hbase. reflexivity.
  - change (split_blank (c :: d :: (a ++ x :: LF :: LF :: b))
            = split_blank (c :: d :: (a ++ [x])) ++ split_blank b).
    change (split_blank (d :: (a ++ x :: LF :: LF :: b))
            = split_blank (d :: (a ++ [x])) ++ split_blank b) in IHd.
    rewrite !split_blank_cons2.
    destruct ((c =? LF) && (d =? LF))%N.
    + now rewrite IHa.
    + rewrite IHd. apply push_app, split_blank_not_nil.
Qed.

(** ** Tight and clean paragraphs *)

Lemma tight_last (s : pystr) :
  tight s -> exists a x, s = a ++ [x] /\ isspace x = false.
Proof.
  intros (Hne & _ & Hr). destruct (rev s) as [|x r] eqn:E.
  - apply (f_equal (@rev N)) in E. rewrite rev_involutive in E. contradiction.
  - exists (rev r), x. split.
    + apply (f_equal (@rev N)) in E. now rewrite rev_involutive in E.
    + now apply lstrip_head in Hr.
Qed.

Lemma join_blank_cons2 (p q : pystr) (ps : list pystr) :
  join_blank (p :: q :: ps) = p ++ blank ++ join_blank (q :: ps).
Proof. reflexivity. Qed.

Lemma join_blank_app (cs1 cs2 : list pystr) :
  cs1 <> [] -> cs2 <> [] ->
  join_blank (cs1 ++ cs2) = join_blank cs1 ++ blank ++ join_blank cs2.
Proof.
  intros H1 H2. induction cs1 as [|c cs1 IH]; [contradiction|].
  destruct cs1 as [|c' cs1].
  - destruct cs2 as [|d cs2]; [contradiction | reflexivity].
  - change ((c :: c' :: cs1) ++ cs2) with (c :: c' :: (cs1 ++ cs2)).
    rewrite !join_blank_cons2.
    change (c' :: cs1 ++ cs2) with ((c' :: cs1) ++ cs2).
    rewrite IH by discriminate. now rewrite <- !app_assoc.
Qed.

Lemma join_blank_tight (g : list pystr) :
  g <> [] -> Forall tight g -> tight (join_blank g).
Proof.
  intros Hne Hg. induction Hg as [|p g Hp Hg IH]; [contradiction|].
  destruct g as [|q g]; [exact Hp|].
  rewrite join_blank_cons2.
  destruct Hp as (Hp0 & Hpl & Hpr).
  destruct (IH ltac:(discriminate)) as (HJ0 & HJl & HJr).
  split; [|split].
  - destruct p; [contradiction | discriminate].
  - now apply lstrip_app_keep.
  - rewrite !rev_app_distr, <- app_assoc. apply lstrip_app_keep; [|exact HJr].
    intros E. apply (f_equal (@rev N)) in E. rewrite rev_involutive in E.
    contradiction.
Qed.

Lemma buffer_of_snoc (g : list pystr) (p : pystr) :
  buffer_of (g ++ [p]) = buffer_of g ++ p ++ blank.
Proof.
  unfold buffer_of. rewrite map_app, concat_app. simpl.
  now rewrite app_nil_r.
Qed.

Lemma buffer_of_one (p : pystr) : buffer_of [p] = p ++ blank.
Proof. unfold buffer_of. simpl. now rewrite app_nil_r. Qed.

Lemma buffer_of_join (g : list pystr) :
  g <> [] -> buffer_of g = join_blank g ++ blank.
Proof.
  intros Hne. induction g as [|p g IH]; [contradiction|].
  destruct g as [|q g]; [apply buffer_of_one|].
  rewrite join_blank_cons2.
  change (buffer_of (p :: q :: g)) with ((p ++ blank) ++ buffer_of (q :: g)).
  rewrite IH by discriminate. now rewrite <- !app_assoc.
Qed.

Lemma strip_tight_blank (s : pystr) : tight s -> strip (s ++ blank) = s.
Proof.
  intros (Hne & Hl & Hr). unfold strip.
  rewrite lstrip_app_keep by assumption.
  unfold rstrip, blank. rewrite rev_app_distr. simpl rev at 1.
  change ([LF; LF] ++ rev s) with (LF :: LF :: rev s).
  simpl lstrip. rewrite Hr. apply rev_involutive.
Qed.

Lemma join_blank_in (g : list pystr) (x : N) :
  In x (join_blank g) -> x = LF \/ exists p, In p g /\ In x p.
Proof.
  induction g as [|p g IH]; [intros []|].
  destruct g as [|q g].
  - simpl. intros H. right. exists p. split; [now left | exact H].
  - rewrite join_blank_cons2. intros H.
    apply in_app_or in H as [H|H].
    + right. exists p. split; [now left | exact H].
    + apply in_app_or in H as [H|H].
      * left. destruct H as [<-|[<-|[]]]; reflexivity.
      * destruct (IH H) as [->|(p' & Hp' & Hx)]; [now left|].
        right. exists p'. split; [now right | exact Hx].
Qed.

Lemma clean_tight (g : list pystr) : Forall clean g -> Forall tight g.
Proof. intros Hg. eapply List.Forall_impl; [|exact Hg]. now intros p [H _]. Qed.

Lemma emit_buffer_of (g : list pystr) :
  Forall clean g -> g <> [] -> emit (buffer_of g) = [join_blank g].
Proof.
  intros Hg Hne.
  pose proof (join_blank_tight g Hne (clean_tight g Hg)) as HJ.
  unfold emit. rewrite buffer_of_join by exact Hne.
  rewrite strip_tight_blank by exact HJ.
  rewrite remove_nul_id.
  - destruct HJ as [HJ _]. now destruct (join_blank g).
  - intros Hin. apply join_blank_in in Hin as [Hx|(p & Hp & Hx)]; [discriminate|].
    rewrite List.Forall_forall in Hg. destruct (Hg p Hp) as (_ & _ & Hnul). auto.
Qed.

Lemma emit_buffer_of_tight (g : list pystr) :
  Forall clean g -> Forall tight (emit (buffer_of g)).
Proof.
  intros Hg. destruct g as [|p g]; [constructor|].
  rewrite emit_buffer_of by (auto; discriminate).
  constructor; [|constructor].
  apply join_blank_tight; [discriminate | now apply clean_tight].
Qed.

Lemma accumulate_tight (m : Z) (ps g : list pystr) :
  Forall clean g -> Forall clean ps ->
  Forall tight (accumulate m (buffer_of g) ps).
Proof.
  revert g. induction ps as [|p ps IH]; intros g Hg Hps; simpl.
  - now apply emit_buffer_of_tight.
  - inversion Hps as [|? ? Hp Hps']; subst.
    destruct (m <=? len (buffer_of g) + len p).
    + apply Forall_app. split; [now apply emit_buffer_of_tight|].
      rewrite <- buffer_of_one. apply IH; [now constructor | exact Hps'].
    + rewrite <- buffer_of_snoc. apply IH; [|exact Hps'].
      apply Forall_app. split; [exact Hg | now constructor].
Qed.

Lemma paragraphs_clean (text : pystr) :
  ~ In NUL text -> Forall clean (paragraphs text).
Proof.
  intros Hnul. unfold paragraphs. apply List.Forall_forall. intros p Hp.
  apply filter_In in Hp as [Hp Hne]. apply in_map_iff in Hp as (q & <- & Hq).
  apply nonempty_true in Hne. split; [|split].
  - now apply strip_tight.
  - apply has_blank_strip.
    pose proof (split_blank_pieces_blank_free text) as Hfree.
    rewrite List.Forall_forall in Hfree. now apply Hfree.
  - intros Hin. apply Hnul.
    apply (split_blank_in text q); [exact Hq | now apply strip_in].
Qed.

Lemma split_blank_join (g : list pystr) :
  g <> [] -> Forall clean g -> split_blank (join_blank g) = g.
Proof.
  intros Hne Hg. induction Hg as [|p g Hp Hg IH]; [contradiction|].
  destruct g as [|q g].
  - destruct Hp as (_ & Hfree & _). now apply blank_free_split.
  - rewrite join_blank_cons2.
    destruct Hp as (Ht & Hfree & _).
    destruct (tight_last p Ht) as (a & x & -> & Hx).
    rewrite <- app_assoc. change ([x] ++ blank ++ join_blank (q :: g))
      with (x :: LF :: LF :: join_blank (q :: g)).
    rewrite split_blank_app.
    + rewrite IH by discriminate. now rewrite (blank_free_split _ Hfree).
    + intros ->. discriminate.
Qed.

Lemma filter_nonempty_tight (g : list pystr) :
  Forall tight g -> List.filter nonempty (map strip g) = g.
Proof.
  induction 1 as [|p g Hp Hg IH]; [reflexivity|]. simpl.
  rewrite (tight_strip p Hp), IH. destruct Hp as [Hne _].
  now destruct p.
Qed.

Lemma paragraphs_join (g : list pystr) :
  Forall clean g -> paragraphs (join_blank g) = g.
Proof.
  intros Hg. destruct g as [|p g]; [reflexivity|].
  unfold paragraphs. rewrite split_blank_join by (auto; discriminate).
  apply filter_nonempty_tight. now apply clean_tight.
Qed.

Lemma paragraphs_join_app (cs1 cs2 : list pystr) :
  Forall tight cs1 ->
  paragraphs (join_blank (cs1 ++ cs2))
  = paragraphs (join_blank cs1) ++ paragraphs (join_blank cs2).
Proof.
  intros H1. destruct cs1 as [|c cs1]; [reflexivity|].
  destruct cs2 as [|d cs2].
  - rewrite app_nil_r. change (paragraphs (join_blank [])) with (@nil pystr).
    now rewrite app_nil_r.
  - rewrite join_blank_app by discriminate.
    destruct (tight_last _ (join_blank_tight (c :: cs1) ltac:(discriminate) H1))
      as (a & x & -> & Hx).
    rewrite <- app_assoc.
    change ([x] ++ blank ++ join_blank (d :: cs2))
      with (x :: LF :: LF :: join_blank (d :: cs2)).
    unfold paragraphs. rewrite split_blank_app.
    + now rewrite map_app, List.filter_app.
    + intros ->. discriminate.
Qed.

Lemma paragraphs_emit (g : list pystr) :
  Forall clean g -> paragraphs (join_blank (emit (buffer_of g))) = g.
Proof.
  intros Hg. destruct g as [|p g]; [reflexivity|].
  rewrite emit_buffer_of by (auto; discriminate).
  change (join_blank [join_blank (p :: g)]) with (join_blank (p :: g)).
  now apply paragraphs_join.
Qed.

(** Re-reading the chunks gives back the paragraphs they were made of. *)
Lemma paragraphs_accumulate (m : Z) (ps g : list pystr) :
  Forall clean g -> Forall clean ps ->
  paragraphs (join_blank (accumulate m (buffer_of g) ps)) = g ++ ps.
Proof.
  revert g. induction ps as [|p ps IH]; intros g Hg Hps; simpl.
  - rewrite app_nil_r. now apply paragraphs_emit.
  - inversion Hps as [|? ? Hp Hps']; subst.
    destruct (m <=? len (buffer_of g) + len p).
    + rewrite paragraphs_join_app by now apply emit_buffer_of_tight.
      rewrite paragraphs_emit by exact Hg.
      rewrite <- buffer_of_one, IH; [reflexivity | now constructor | exact Hps'].
    + rewrite <- buffer_of_snoc, IH; [now rewrite <- app_assoc | | exact Hps'].
      apply Forall_app. split; [exact Hg | now constructor].
Qed.

Lemma emit_in (buffer c : pystr) :
  In c (emit buffer) ->
  c = remove_nul (strip buffer) /\ c <> [] /\ strip buffer <> [].
Proof.
  unfold emit. destruct (remove_nul (strip buffer)) as [|x t] eqn:E; simpl.
  - intros [].
  - intros [<-|[]]. split; [reflexivity|]. split; [discriminate|].
    intros Hs. rewrite Hs in E. discriminate.
Qed.

Lemma accumulate_in (m : Z) (ps : list pystr) (buffer c : pystr) :
  In c (accumulate m buffer ps) -> exists b, In c (emit b).
Proof.
  revert buffer. induction ps as [|p ps IH]; intros buffer; simpl.
  - intros H. now exists buffer.
  - destruct (m <=? len buffer + len p).
    + intros H. apply in_app_or in H as [H|H]; [now exists buffer | eauto].
    + eauto.
Qed.

Lemma extract_full_text_nul_free (pages : list (option pystr)) :
  ~ In NUL (extract_full_text pages).
Proof.
  unfold extract_full_text.
  assert (H : forall acc : pystr, ~ In NUL acc ->
            ~ In NUL (fold_left
                        (fun full_text text =>
                           match text with
                           | Some (c :: t) =>
                             full_text ++ remove_nul (remove_nul (c :: t)) ++ [LF]
                           | _ => full_text
                           end) pages acc)).
  { induction pages as [|page pages IH]; intros acc Hacc; [exact Hacc|].
    simpl fold_left. apply IH. destruct page as [[|c t]|]; try exact Hacc.
    intros Hin. apply in_app_or in Hin as [Hin|Hin]; [auto|].
    apply in_app_or in Hin as [Hin|Hin].
    - now apply remove_nul_free in Hin.
    - destruct Hin as [Hin|[]]. discriminate. }
  apply H. intros [].
Qed.

Lemma chunk_text_tight (text c : pystr) :
  ~ In NUL text -> In c (chunk_text text) -> tight c.
Proof.
  intros Hnul Hc. rewrite chunk_text_accumulate in Hc.
  pose proof (accumulate_tight 500 (paragraphs text) [] (List.Forall_nil _)
                (paragraphs_clean text Hnul)) as Ht.
  rewrite List.Forall_forall in Ht. now apply Ht.
Qed.

Lemma chunk_text_rechunk (text : pystr) :
  ~ In NUL text ->
  chunk_text (join_blank (chunk_text text)) = chunk_text text.
Proof.
  intros Hnul. rewrite !chunk_text_accumulate. f_equal.
  apply (paragraphs_accumulate 500 (paragraphs text) []);
    [constructor | now apply paragraphs_clean].
Qed.

(** Outside the handler, which removes the null characters of every
    page before the loop: the loop strips a buffer before it removes the
    null characters, so on a text with null characters a chunk may keep
    whitespace. *)
Example chunk_of_nul_padded_space :
  chunk_text [NUL; 32%N; NUL] = [[32%N]] /\ strip [32%N] = [].
Proof. split; reflexivity. Qed.

(** C9: chunking is idempotent: for a text without null characters, and
    so for every text the handler assembles from the pages, chunking the
    chunks joined by blank lines gives the same chunks again, hence the
    same chunks under any normalisation of their whitespace. *)
Theorem chunk_text_idempotent (text : pystr) (pages : list (option pystr)) :
  (~ In NUL text ->
   chunk_text (join_blank (chunk_text text)) = chunk_text text) /\
  chunk_text (join_blank (chunk_text (extract_full_text pages)))
  = chunk_text (extract_full_text pages) /\
  (forall normalize : pystr -> pystr,
     map normalize (chunk_text (join_blank (chunk_text (extract_full_text pages))))
     = map normalize (chunk_text (extract_full_text pages))).
Proof.
  split; [apply chunk_text_rechunk|].
  assert (H : chunk_text (join_blank (chunk_text (extract_full_text pages)))
              = chunk_text (extract_full_text pages))
    by apply chunk_text_rechunk, extract_full_text_nul_free.
  split; [exact H|]. intros normalize. now rewrite H.
Qed.

Lemma chunk_text_idempotent_witness :
  chunk_text (join_blank (chunk_text (of_string "  one

two


 three ")))
  = chunk_text (of_string "  one

two


 three ").
Proof.
  apply (chunk_text_idempotent (of_string "  one

two


 three ") []).
  vm_compute. intuition discriminate.
Defined.

(** Outside the handler again: null characters count in the size test
    but are removed from the chunks, so a text padded with them gives two
    chunks where its chunks, joined and chunked again, give one. *)
Example chunk_text_rechunk_with_nul :
  chunk_text padded_text = [of_string "a"; of_string "b"] /\
  chunk_text (join_blank (chunk_text padded_text)) = [of_string "a

b"] /\
  ~ exists normalize : pystr -> pystr,
      map normalize (chunk_text (join_blank (chunk_text padded_text)))
      = map normalize (chunk_text padded_text).
Proof.
  assert (H1 : chunk_text padded_text = [of_string "a"; of_string "b"])
    by (vm_compute; reflexivity).
  assert (H2 : chunk_text (join_blank (chunk_text padded_text))
               = [of_string "a

b"]) by (vm_compute; reflexivity).
  split; [exact H1|]. split; [exact H2|].
  intros [normalize H]. rewrite H2, H1 in H. discriminate.
Qed.

(** * Further properties *)

(** ** The chunker keeps the text *)

Lemma visible_app (s t : pystr) : visible (s ++ t) = visible s ++ visible t.
Proof. apply List.filter_app. Qed.

Lemma visible_cons (c : N) (s : pystr) :
  visible (c :: s) = if keep c then c :: visible s else visible s.
Proof. reflexivity. Qed.

Lemma visible_rev (s : pystr) : visible (rev s) = rev (visible s).
Proof.
  induction s as [|c s IH]; [reflexivity|]. simpl rev.
  rewrite visible_app, IH. simpl. destruct (keep c); simpl.
  - reflexivity.
  - now rewrite app_nil_r.
Qed.

Lemma visible_lstrip (s : pystr) : visible (lstrip s) = visible s.
Proof.
  induction s as [|c s IH]; [reflexivity|]. simpl.
  destruct (isspace c) eqn:E; [|reflexivity].
  unfold keep. now rewrite E.
Qed.

Lemma visible_strip (s : pystr) : visible (strip s) = visible s.
Proof.
  unfold strip, rstrip.
  now rewrite visible_rev, visible_lstrip, visible_rev, rev_involutive,
    visible_lstrip.
Qed.

Lemma visible_remove_nul (s : pystr) : visible (remove_nul s) = visible s.
Proof.
  induction s as [|c s IH]; [reflexivity|]. simpl.
  destruct (N.eqb_spec c NUL) as [->|Hc]; simpl.
  - exact IH.
  - now rewrite IH.
Qed.

Lemma visible_blank : visible blank = [].
Proof. reflexivity. Qed.

Lemma visible_emit (buffer : pystr) :
  visible (concat (emit buffer)) = visible buffer.
Proof.
  unfold emit.
  rewrite <- (visible_strip buffer), <- (visible_remove_nul (strip buffer)).
  destruct (remove_nul (strip buffer)) as [|c t]; [reflexivity|].
  simpl concat. now rewrite app_nil_r.
Qed.

Lemma concat_push (c : N) (l : list pystr) :
  l <> [] -> concat (push c l) = c :: concat l.
Proof. destruct l; [contradiction | reflexivity]. Qed.

Lemma visible_split_blank (s : pystr) :
  visible (concat (split_blank s)) = visible s.
Proof.
  induction s as [| c | c d s IHs IHd] using pystr_ind2; try reflexivity.
  rewrite split_blank_cons2.
  destruct ((c =? LF) && (d =? LF))%N eqn:E.
  - apply andb_true_iff in E as [Hc Hd].
    apply N.eqb_eq in Hc, Hd. subst c d.
    simpl concat. rewrite IHs. reflexivity.
  - rewrite concat_push by apply split_blank_not_nil.
    rewrite (visible_cons c (d :: s)), visible_cons. now rewrite IHd.
Qed.

Lemma visible_concat_strip (l : list pystr) :
  visible (concat (List.filter nonempty (map strip l))) = visible (concat l).
Proof.
  induction l as [|p l IH]; [reflexivity|].
  cbn [map List.filter].
  change (concat (p :: l)) with (p ++ concat l).
  rewrite visible_app, <- IH, <- (visible_strip p).
  destruct (strip p) as [|c t]; cbn [nonempty].
  - reflexivity.
  - set (rest := List.filter nonempty (map strip l)).
    change (concat ((c :: t) :: rest)) with ((c :: t) ++ concat rest).
    now rewrite visible_app.
Qed.

Lemma visible_paragraphs (text : pystr) :
  visible (concat (paragraphs text)) = visible text.
Proof.
  unfold paragraphs. now rewrite visible_concat_strip, visible_split_blank.
Qed.

Lemma visible_accumulate (m : Z) (ps : list pystr) (buffer : pystr) :
  visible (concat (accumulate m buffer ps)) = visible (buffer ++ concat ps).
Proof.
  revert buffer. induction ps as [|p ps IH]; intros buffer; simpl.
  - rewrite app_nil_r. apply visible_emit.
  - destruct (m <=? len buffer + len p).
    + rewrite concat_app, visible_app, visible_emit, IH.
      rewrite !visible_app, visible_blank. now rewrite app_nil_r.
    + rewrite IH, !visible_app, visible_blank. rewrite app_nil_r.
      now rewrite <- app_assoc.
Qed.

Lemma chunk_text_keeps_visible_text_aux (text : pystr) :
  visible (concat (chunk_text text)) = visible text.
Proof.
  rewrite chunk_text_accumulate, visible_accumulate. simpl app.
  apply visible_paragraphs.
Qed.

(** X1: chunking loses no text and reorders nothing: the characters of
    the chunks other than whitespace and nulls are, in order, those of
    the text. *)
Theorem chunk_text_keeps_visible_text (text : pystr) :
  visible (concat (chunk_text text)) = visible text.
Proof. apply chunk_text_keeps_visible_text_aux. Qed.

Lemma visible_in (s : pystr) (x : N) :
  In x (visible s) <-> In x s /\ keep x = true.
Proof. apply filter_In. Qed.

(** ** Chunk sizes *)

Lemma remove_nul_length (s : pystr) : (length (remove_nul s) <= length s)%nat.
Proof.
  induction s as [|c s IH]; simpl; [lia|].
  destruct (negb (c =? NUL)%N); simpl; lia.
Qed.

Lemma strip_length (s : pystr) : (length (strip s) <= length s)%nat.
Proof.
  unfold strip.
  destruct (rstrip_prefix (lstrip s)) as [t Ht].
  destruct (lstrip_suffix s) as [u Hu].
  apply (f_equal (@length N)) in Ht, Hu. rewrite length_app in Ht, Hu. lia.
Qed.

Lemma lstrip_app (s t : pystr) :
  lstrip (s ++ t) = match lstrip s with [] => lstrip t | _ => lstrip s ++ t end.
Proof.
  induction s as [|c s IH]; simpl.
  - now destruct (lstrip t).
  - destruct (isspace c); [exact IH | reflexivity].
Qed.

Lemma strip_app_blank (s : pystr) : strip (s ++ blank) = strip s.
Proof.
  unfold strip. rewrite lstrip_app.
  destruct (lstrip s) as [|c t] eqn:E; [reflexivity|].
  unfold rstrip, blank. rewrite rev_app_distr. reflexivity.
Qed.

(** What a buffer would emit is short, or is one of the given paragraphs. *)
Lemma accumulate_short_or_single (ps : list pystr) (buffer c : pystr) :
  (len (remove_nul (strip buffer)) < 500 \/
   exists p, In p ps /\ remove_nul (strip buffer) = remove_nul (strip p)) ->
  In c (accumulate 500 buffer ps) ->
  len c < 500 \/ exists p, In p ps /\ c = remove_nul (strip p).
Proof.
  revert buffer.
  assert (Hgen : forall (rest : list pystr) (buffer : pystr),
             (forall p, In p rest -> In p ps) ->
             (len (remove_nul (strip buffer)) < 500 \/
              exists p, In p ps /\
                        remove_nul (strip buffer) = remove_nul (strip p)) ->
             In c (accumulate 500 buffer rest) ->
             len c < 500 \/ exists p, In p ps /\ c = remove_nul (strip p)).
  { induction rest as [|p rest IH]; intros buffer Hsub Hbuf Hc; simpl in Hc.
    - apply emit_in in Hc as (-> & _). exact Hbuf.
    - assert (Hrest : forall q, In q rest -> In q ps)
        by (intros q Hq; apply Hsub; now right).
      destruct (500 <=? len buffer + len p) eqn:E.
      + apply in_app_or in Hc as [Hc|Hc].
        * apply emit_in in Hc as (-> & _). exact Hbuf.
        * apply (IH (p ++ blank)); [exact Hrest | | exact Hc].
          right. exists p. split; [apply Hsub; now left|].
          now rewrite strip_app_blank.
      + apply (IH (buffer ++ p ++ blank)); [exact Hrest | | exact Hc].
        left. apply Z.leb_gt in E.
        rewrite app_assoc, strip_app_blank.
        pose proof (remove_nul_length (strip (buffer ++ p))).
        pose proof (strip_length (buffer ++ p)).
        unfold len in *. rewrite length_app in *. lia. }
  intros buffer. apply Hgen. auto.
Qed.

Lemma paragraphs_stripped (text p : pystr) :
  In p (paragraphs text) -> strip p = p.
Proof.
  unfold paragraphs. intros Hp. apply filter_In in Hp as [Hp _].
  apply in_map_iff in Hp as (q & <- & _). apply strip_idem.
Qed.

(** X2: a chunk reaches 500 characters only when it is a single
    paragraph of the text (without its null characters): chunks made of
    several paragraphs are shorter than 500. *)
Theorem chunk_long_only_if_single_paragraph (text c : pystr) :
  In c (chunk_text text) ->
  len c < 500 \/ exists p, In p (paragraphs text) /\ c = remove_nul p.
Proof.
  intros Hc. rewrite chunk_text_accumulate in Hc.
  apply accumulate_short_or_single in Hc.
  - destruct Hc as [Hc|(p & Hp & ->)]; [now left|]. right.
    exists p. split; [exact Hp|]. now rewrite (paragraphs_stripped text p).
  - left. reflexivity.
Qed.

Lemma chunk_long_only_if_single_paragraph_witness :
  len (of_string "first

second") < 500 \/
  exists p, In p (paragraphs (of_string "first

second  ")) /\ of_string "first

second" = remove_nul p.
Proof.
  apply (chunk_long_only_if_single_paragraph (of_string "first

second  ")).
  vm_compute. now left.
Defined.

(** ** Empty and single-paragraph texts *)

Lemma chunk_text_nul_free (text c : pystr) :
  In c (chunk_text text) -> ~ In NUL c.
Proof.
  intros Hc. rewrite chunk_text_accumulate in Hc.
  apply accumulate_in in Hc as [b Hb]. apply emit_in in Hb as (-> & _).
  apply remove_nul_free.
Qed.

(** X3: a text without null characters gives no chunk exactly when it is
    empty or all whitespace. *)
Theorem chunk_text_empty_iff_blank (text : pystr) :
  ~ In NUL text ->
  chunk_text text = [] <-> forallb isspace text = true.
Proof.
  intros Hnul. split.
  - intros He. apply forallb_forall. intros x Hx.
    destruct (isspace x) eqn:E; [reflexivity|]. exfalso.
    assert (Hv : In x (visible text)).
    { apply visible_in. split; [exact Hx|]. unfold keep. rewrite E. simpl.
      apply negb_true_iff, N.eqb_neq. intros ->. contradiction. }
    rewrite <- chunk_text_keeps_visible_text_aux, He in Hv. exact Hv.
  - intros Hall. destruct (chunk_text text) as [|c cs] eqn:E; [reflexivity|].
    exfalso.
    assert (Hc : In c (chunk_text text)) by (rewrite E; now left).
    pose proof (chunk_text_tight text c Hnul Hc) as (Hne & Hl & _).
    destruct c as [|x t]; [contradiction|].
    pose proof (lstrip_head x t Hl) as Hx.
    assert (Hv : In x (visible (concat (chunk_text text)))).
    { rewrite E. simpl concat. apply visible_in. split; [now left|].
      unfold keep. rewrite Hx. simpl. apply negb_true_iff, N.eqb_neq.
      intros ->. apply (chunk_text_nul_free text (NUL :: t) Hc). now left. }
    rewrite chunk_text_keeps_visible_text_aux in Hv.
    apply visible_in in Hv as [Hin _].
    rewrite forallb_forall in Hall. rewrite (Hall x Hin) in Hx. discriminate.
Qed.

Lemma chunk_text_empty_iff_blank_witness :
  chunk_text (of_string "

   ") = [].
Proof.
  apply chunk_text_empty_iff_blank.
  - vm_compute. intuition discriminate.
  - reflexivity.
Defined.

(** X4: a text without blank line and without null characters is kept in
    one chunk, whatever its length: the text without its surrounding
    whitespace. *)
Theorem chunk_text_single_paragraph (text : pystr) :
  ~ In NUL text -> has_blank text = false -> strip text <> [] ->
  chunk_text text = [strip text].
Proof.
  intros Hnul Hfree Hne. rewrite chunk_text_accumulate. unfold paragraphs.
  rewrite (blank_free_split text Hfree).
  cbn [map List.filter]. rewrite (proj2 (nonempty_true _) Hne).
  assert (Hemit : emit (strip text ++ blank) = [strip text]).
  { unfold emit. rewrite strip_app_blank, strip_idem.
    rewrite remove_nul_id.
    - now rewrite (proj2 (nonempty_true _) Hne).
    - intros Hin. apply Hnul. now apply strip_in. }
  cbn [accumulate]. destruct (500 <=? len [] + len (strip text)).
  - exact Hemit.
  - exact Hemit.
Qed.

Lemma chunk_text_single_paragraph_witness :
  chunk_text (of_string "  one line
and another  ") = [of_string "one line
and another"].
Proof.
  apply (chunk_text_single_paragraph (of_string "  one line
and another  ")).
  - vm_compute. intuition discriminate.
  - reflexivity.
  - discriminate.
Defined.

(** ** Paragraphs stay whole *)

Lemma paragraphs_join_concat (cs : list pystr) :
  Forall tight cs -> paragraphs (join_blank cs) = concat (map paragraphs cs).
Proof.
  induction 1 as [|c cs Hc Hcs IH]; [reflexivity|].
  change (c :: cs) with ([c] ++ cs).
  rewrite paragraphs_join_app by (constructor; [exact Hc | constructor]).
  now rewrite IH.
Qed.

(** X5: no paragraph is split or moved: for a text without null
    characters the paragraphs of the chunks, chunk after chunk, are the
    paragraphs of the text. *)
Theorem chunk_text_keeps_paragraphs (text : pystr) :
  ~ In NUL text ->
  concat (map paragraphs (chunk_text text)) = paragraphs text.
Proof.
  intros Hnul.
  assert (Ht : Forall tight (chunk_text text)).
  { apply List.Forall_forall. intros c Hc. now apply (chunk_text_tight text). }
  rewrite <- (paragraphs_join_concat _ Ht), chunk_text_accumulate.
  apply (paragraphs_accumulate 500 (paragraphs text) []);
    [constructor | now apply paragraphs_clean].
Qed.

Lemma chunk_text_keeps_paragraphs_witness :
  concat (map paragraphs (chunk_text (of_string "one

 two

three")))
  = paragraphs (of_string "one

 two

three").
Proof.
  apply chunk_text_keeps_paragraphs. vm_compute. intuition discriminate.
Defined.

(** ** From the pages to the chunks *)

Lemma visible_extract_full_text (pages : list (option pystr)) :
  visible (extract_full_text pages) = visible (concat (map page_text pages)).
Proof.
  unfold extract_full_text.
  assert (H : forall acc : pystr,
            visible (fold_left
                       (fun full_text text =>
                          match text with
                          | Some (c :: t) =>
                            full_text ++ remove_nul (remove_nul (c :: t)) ++ [LF]
                          | _ => full_text
                          end) pages acc)
            = visible acc ++ visible (concat (map page_text pages))).
  { induction pages as [|page pages IH]; intros acc.
    - simpl. now rewrite app_nil_r.
    - cbn [fold_left]. rewrite IH.
      change (concat (map page_text (page :: pages)))
        with (page_text page ++ concat (map page_text pages)).
      rewrite (visible_app (page_text page)), app_assoc. f_equal.
      destruct page as [[|c t]|]; unfold page_text;
        try (now rewrite app_nil_r).
      set (raw := c :: t).
      rewrite !visible_app, !visible_remove_nul.
      change (visible [LF]) with (@nil N). now rewrite app_nil_r. }
  apply (H []).
Qed.

(** X6: from the pages of a document to its chunks nothing is lost: the
    text handed to the chunker has no null character, and the characters
    of the chunks other than whitespace and nulls are, in order, those of
    the pages. *)
Theorem pages_to_chunks_keep_text (pages : list (option pystr)) :
  ~ In NUL (extract_full_text pages) /\
  visible (concat (chunk_text (extract_full_text pages)))
  = visible (concat (map page_text pages)).
Proof.
  split; [apply extract_full_text_nul_free|].
  rewrite chunk_text_keeps_visible_text_aux. apply visible_extract_full_text.
Qed.

(** ** Construction *)



Lemma truthy_str_some (s : string) : truthy_str (Some s) = true <-> s <> ""%string.
Proof. destruct s; simpl; split; congruence. Qed.

(** The run of [_initialize_client], case by case. *)
Lemma initialize_client_run (env : Platform) (w : World2) :
  exists (oc : option Client) (evs : list Event2),
    _initialize_client env w = (Val oc, logged2 w evs) /\
    (forall c, oc = Some c ->
       exists url key, url <> ""%string /\ key <> ""%string /\
                       create_client env url key = Val c /\
                       client_calls evs = [(url, key)]) /\
    (oc = None ->
       client_calls evs = [] \/
       exists url key e, url <> ""%string /\ key <> ""%string /\
                         client_calls evs = [(url, key)] /\
                         create_client env url key = Raise e).
Proof.
  assert (Hfail : forall e,
            exists (oc : option Client) (evs : list Event2),
              (Val (@None Client), logged2 w [Print2 (LogClientFailed e)])
              = (Val oc, logged2 w evs) /\
              (forall c, oc = Some c ->
                 exists url key, url <> ""%string /\ key <> ""%string /\
                                 create_client env url key = Val c /\
                                 client_calls evs = [(url, key)]) /\
              (oc = None ->
                 client_calls evs = [] \/
                 exists url key e, url <> ""%string /\ key <> ""%string /\
                                   client_calls evs = [(url, key)] /\
                                   create_client env url key = Raise e)).
  { intros e. exists None, [Print2 (LogClientFailed e)].
    split; [reflexivity|]. split; [discriminate | now left]. }
  assert (Hgo : forall url key,
            exists (oc : option Client) (evs : list Event2),
              (if truthy_str (Some url) && truthy_str (Some key)
               then match create_client env url key with
                    | Val c =>
                      (Val (Some c),
                       logged2 w [EvCreateClient url key; Print2 LogClientReady])
                    | Raise e =>
                      (Val None,
                       logged2 w [EvCreateClient url key;
                                  Print2 (LogClientFailed e)])
                    end
               else (Val None,
                     logged2 w [Print2 (LogClientFailed
                       "Supabase credentials not found in secrets or environment")]))
              = (Val oc, logged2 w evs) /\
              (forall c, oc = Some c ->
                 exists url key, url <> ""%string /\ key <> ""%string /\
                                 create_client env url key = Val c /\
                                 client_calls evs = [(url, key)]) /\
              (oc = None ->
                 client_calls evs = [] \/
                 exists url key e, url <> ""%string /\ key <> ""%string /\
                                   client_calls evs = [(url, key)] /\
                                   create_client env url key = Raise e)).
  { intros url key.
    destruct (truthy_str (Some url)) eqn:Hu;
      [destruct (truthy_str (Some key)) eqn:Hk|]; simpl andb; cbv iota.
    - apply truthy_str_some in Hu, Hk.
      destruct (create_client env url key) as [c|e] eqn:E.
      + eexists; eexists. split; [reflexivity|]. split; [|discriminate].
        intros c' [= <-]. exists url, key. auto.
      + eexists; eexists. split; [reflexivity|]. split; [discriminate|].
        intros _. right. exists url, key, e. auto.
    - eexists; eexists. split; [reflexivity|].
      split; [discriminate | now left].
    - eexists; eexists. split; [reflexivity|].
      split; [discriminate | now left]. }
  unfold _initialize_client, try_except2, bind2, raise2, ret2, print2, call2.
  destruct (secrets_supabase env) as [[section|]|e]; cbn [fst snd].
  - destruct (section !! "url"%string) as [url|]; [|apply Hfail].
    destruct (section !! "anon_key"%string) as [key|]; [|apply Hfail].
    specialize (Hgo url key).
    destruct (truthy_str (Some url) && truthy_str (Some key));
      [destruct (create_client env url key)|]; cbn [log2 rng2];
      unfold logged2 in *; cbn [log2 rng2] in *;
      rewrite <- ?app_assoc; exact Hgo.
  - destruct (getenv env "SUPABASE_URL") as [url|]; [|apply Hfail].
    destruct (getenv env "SUPABASE_ANON_KEY") as [key|]; [|apply Hfail].
    specialize (Hgo url key).
    destruct (truthy_str (Some url) && truthy_str (Some key));
      [destruct (create_client env url key)|]; cbn [log2 rng2];
      unfold logged2 in *; cbn [log2 rng2] in *;
      rewrite <- ?app_assoc; exact Hgo.
  - apply Hfail.
Qed.

(** X7: [_initialize_client] never raises; it leaves a client only when
    the factory returned it for a non-empty URL and key, and it calls the
    factory at most once, never with an empty URL or key. *)
Theorem initialize_client_sound (env : Platform) (w : World2) :
  exists (oc : option Client) (evs : list Event2),
    _initialize_client env w = (Val oc, logged2 w evs) /\
    (length (client_calls evs) <= 1)%nat /\
    (forall url key, In (url, key) (client_calls evs) ->
       url <> ""%string /\ key <> ""%string) /\
    (forall c, oc = Some c ->
       exists url key, client_calls evs = [(url, key)] /\
                       create_client env url key = Val c).
Proof.
  destruct (initialize_client_run env w) as (oc & evs & Hrun & Hsome & Hnone).
  exists oc, evs. split; [exact Hrun|].
  destruct oc as [c|].
  - destruct (Hsome c eq_refl) as (url & key & Hu & Hk & Hc & Hcalls).
    rewrite Hcalls. split; [simpl; lia|]. split.
    + intros u k [[= <- <-]|[]]. auto.
    + intros c' [= <-]. exists url, key. auto.
  - destruct (Hnone eq_refl) as [Hc|(url & key & e & Hu & Hk & Hc & He)];
      rewrite Hc; (split; [simpl; lia|]); (split; [|discriminate]).
    + intros u k [].
    + intros u k [[= <- <-]|[]]. auto.
Qed.

(** X8: the secrets come first and there is no fallback: unless the
    secrets test simply fails, the environment variables play no part,
    and a [supabase] section without "url" or "anon_key", or an error
    while reading the secrets, leaves the manager without client whatever
    the environment holds. *)
Theorem secrets_precede_environment
    (env : Platform) (g : string -> option string) (w : World2) :
  secrets_supabase env <> Val None ->
  _initialize_client (with_getenv env g) w = _initialize_client env w /\
  (forall section,
     secrets_supabase env = Val (Some section) ->
     section !! "url"%string = None \/ section !! "anon_key"%string = None ->
     fst (_initialize_client env w) = Val None) /\
  (forall e, secrets_supabase env = Raise e ->
     fst (_initialize_client env w) = Val None).
Proof.
  intros Hs. unfold _initialize_client, with_getenv, try_except2, bind2,
    raise2, ret2, print2, call2. cbn [secrets_supabase getenv create_client].
  destruct (secrets_supabase env) as [[section|]|e]; [| contradiction |].
  - split; [reflexivity|]. split; [|discriminate].
    intros section' [= <-] [Hu|Hk].
    + now rewrite Hu.
    + rewrite Hk. now destruct (section !! "url"%string).
  - split; [reflexivity|]. split; [discriminate|]. reflexivity.
Qed.

Lemma secrets_precede_environment_witness :
  fst (_initialize_client half_secret_platform quiet_world2) = Val None.
Proof.
  apply (proj1 (proj2 (secrets_precede_environment half_secret_platform
                         (fun _ => None) quiet_world2 ltac:(discriminate)))
           {[ "url"%string := "https://db.example"%string ]} eq_refl).
  right. reflexivity.
Defined.



(** X9: [BrandRAG.__init__] never raises.  The helper it builds has a
    store only when that store is connected, so its [db] is its available
    store; it has a model exactly when loading it did not raise; and the
    platform chunks are counted once, exactly when a store is kept. *)
Theorem BrandRAG_init_invariant (env : Platform) (w : World2) :
  exists (rag : BrandRAG) (evs : list Event2),
    BrandRAG_init env w = (Val rag, {| log2 := log2 w ++ evs;
                                       rng2 := rng2 w |}) /\
    available_db rag = db rag /\
    embedder rag
    = match SentenceTransformer env "all-MiniLM-L6-v2" "cpu" with
      | Val m => Some m
      | Raise _ => None
      end /\
    (db rag = None <-> fst (_initialize_client env w) = Val None) /\
    count_calls evs = match db rag with Some _ => [None] | None => [] end.
Proof.
  unfold BrandRAG_init, SupabaseManager_init, _initialize_client, lift,
    count_knowledge_chunks, available_db, is_connected,
    try_except2, bind2, raise2, ret2, print2, call2,
    try_except, bind, print, call, ret.
  destruct (SentenceTransformer env "all-MiniLM-L6-v2" "cpu") as [m|em];
    (destruct (secrets_supabase env) as [[section|]|es];
     [ destruct (section !! "url"%string) as [u|];
       [destruct (section !! "anon_key"%string) as [k|]|]
     | destruct (getenv env "SUPABASE_URL") as [u|];
       [destruct (getenv env "SUPABASE_ANON_KEY") as [k|]|]
     | ]);
    cbn [fst snd log2 rng2 log rng client db embedder];
    try (destruct (truthy_str (Some u) && truthy_str (Some k));
         [destruct (create_client env u k) as [c|ec]|];
         cbn [fst snd log2 rng2 log rng client db embedder]);
    try (destruct (count_execute c None) as [[[v|]]|e];
         cbn [fst snd log2 rng2 log rng client db embedder count_attr]);
    (eexists; eexists;
     split; [f_equal; f_equal; rewrite <- ?app_assoc; reflexivity|]);
    (split; [reflexivity|]); (split; [reflexivity|]);
    (split; [split; first [reflexivity | discriminate] | reflexivity]).
Qed.

Lemma BrandRAG_init_invariant_witness :
  exists rag : BrandRAG,
    fst (BrandRAG_init half_secret_platform quiet_world2) = Val rag /\
    db rag = None /\ embedder rag = None.
Proof.
  destruct (BrandRAG_init_invariant half_secret_platform quiet_world2)
    as (rag & evs & Hrun & _ & Hmodel & Hdb & _).
  exists rag. rewrite Hrun. split; [reflexivity|].
  split; [now apply Hdb | exact Hmodel].
Defined.

Lemma initialize_client_sound_witness :
  exists url key,
    create_client env_platform url key = Val accepting_client /\
    url <> ""%string /\ key <> ""%string.
Proof.
  destruct (initialize_client_sound env_platform quiet_world2)
    as (oc & evs & Hrun & _ & Hne & Hsome).
  injection Hrun as Hoc Hlog.
  destruct (Hsome accepting_client (eq_sym Hoc)) as (url & key & Hcalls & Hc).
  exists url, key. split; [exact Hc|].
  apply Hne. rewrite Hcalls. now left.
Defined.

(** ** Ingestion *)

Lemma available_db_client (self : BrandRAG) (d : SupabaseManager) :
  available_db self = Some d -> db self = Some d /\ exists c, client d = Some c.
Proof.
  unfold available_db, is_connected. destruct (db self) as [d'|]; [|discriminate].
  destruct (client d') as [c|] eqn:E; [|discriminate].
  intros [= <-]. eauto.
Qed.

Lemma create_embedding_for_store (self : BrandRAG) (text : string) (w : World) :
  exists (v : list Q) (evs : list Event) (rng' : nat -> Q),
    create_embedding self text w = (Val v, {| log := log w ++ evs; rng := rng' |}) /\
    omap (fun ev => match ev with Inner (EvInsert d) => Some d | _ => None end)
      (map Inner evs) = [] /\
    (forall model u, embedder self = Some model -> encode model text = Val u ->
                     v = u).
Proof.
  rewrite create_embedding_run. unfold drawn, logged. cbn [log rng].
  destruct (embedder self) as [model|].
  - destruct (encode model text) as [v|e] eqn:E.
    + exists v. eexists. eexists. split; [reflexivity|]. split; [reflexivity|].
      intros model' u [= <-]. congruence.
    + eexists. eexists. eexists. split; [reflexivity|]. split; [reflexivity|].
      intros model' u [= <-]. congruence.
  - eexists. eexists. eexists. split; [reflexivity|]. split; [reflexivity|].
    discriminate.
Qed.

Lemma insert_calls_app (e1 e2 : list Event2) :
  insert_calls (e1 ++ e2) = insert_calls e1 ++ insert_calls e2.
Proof. apply omap_app. Qed.

(** The loop of [store_brand_examples] on a connected store. *)
Lemma store_examples_loop_run (self : BrandRAG) (d : SupabaseManager)
    (c : Client) (brand_id : option string) (content_type source : string) :
  client d = Some c ->
  forall (examples : list string) (idx success_count : Z) (w : World2),
  exists (calls : list InsertData) (evs : list Event2) (rng' : nat -> Q),
    store_examples_loop self d brand_id content_type source idx examples
      success_count w
    = (Val (success_count
            + Z.of_nat (length (List.filter (accepted c) calls))),
       {| log2 := log2 w ++ evs; rng2 := rng' |}) /\
    insert_calls evs = calls /\
    calls_from self brand_id content_type source idx examples calls.
Proof.
  intros Hc. induction examples as [|example examples IH];
    intros idx success_count w.
  - exists [], [], (rng2 w). cbn [store_examples_loop]. unfold ret2.
    rewrite app_nil_r, Z.add_0_r. destruct w. repeat split.
  - cbn [store_examples_loop].
    destruct (create_embedding_for_store self example
                {| log := []; rng := rng2 w |})
      as (v & eve & rng1 & Hemb & Hnoins & Hmodel).
    unfold bind2 at 1. unfold lift at 1. rewrite Hemb. cbn [log rng app].
    unfold bind2 at 1. unfold lift at 1.
    rewrite (store_knowledge_chunk_run d c) by exact Hc.
    remember (insert_data example v brand_id source idx
                (Some (example_metadata content_type example)))
      as data eqn:Hdata.
    cbn [log rng logged app map rng2 log2].
    unfold bind2 at 1.
    destruct (insert_execute c data) as [[[|row rows]|]|e] eqn:E.
    + unfold bind2 at 1, print2, call2, ret2 at 1. cbn [fst snd log2 rng2].
      match goal with |- context [store_examples_loop _ _ _ _ _ _ _ _ ?w'] =>
        destruct (IH (idx + 1) success_count w') as (calls & evs & rng' & Hrun & Hins & Hfrom)
      end.
      rewrite Hrun. cbn [log2 rng2].
      exists (data :: calls). eexists. exists rng'. split; [|split].
      * f_equal; [|f_equal; rewrite <- !app_assoc; reflexivity].
        cbn [List.filter].
        replace (accepted c data) with false by (unfold accepted; now rewrite E).
        reflexivity.
      * rewrite !insert_calls_app. unfold insert_calls at 1. rewrite Hnoins.
        rewrite Hins. reflexivity.
      * cbn [calls_from].
        assert (Hd : d_embedding data = v) by (now rewrite Hdata).
        rewrite Hd. split; [exact Hdata|]. split; [|exact Hfrom].
        intros model u Hm Hu. now apply (Hmodel model u).
    + unfold ret2 at 1.
      match goal with |- context [store_examples_loop _ _ _ _ _ _ _ _ ?w'] =>
        destruct (IH (idx + 1) (success_count + 1) w') as (calls & evs & rng' & Hrun & Hins & Hfrom)
      end.
      rewrite Hrun. cbn [log2 rng2].
      exists (data :: calls). eexists. exists rng'. split; [|split].
      * f_equal; [|f_equal; rewrite <- !app_assoc; reflexivity].
        cbn [List.filter].
        replace (accepted c data) with true by (unfold accepted; now rewrite E).
        cbn [length]. f_equal. lia.
      * rewrite !insert_calls_app. unfold insert_calls at 1. rewrite Hnoins.
        rewrite Hins. reflexivity.
      * cbn [calls_from].
        assert (Hd : d_embedding data = v) by (now rewrite Hdata).
        rewrite Hd. split; [exact Hdata|]. split; [|exact Hfrom].
        intros model u Hm Hu. now apply (Hmodel model u).
    + unfold bind2 at 1, print2, call2, ret2 at 1. cbn [fst snd log2 rng2].
      match goal with |- context [store_examples_loop _ _ _ _ _ _ _ _ ?w'] =>
        destruct (IH (idx + 1) success_count w') as (calls & evs & rng' & Hrun & Hins & Hfrom)
      end.
      rewrite Hrun. cbn [log2 rng2].
      exists (data :: calls). eexists. exists rng'. split; [|split].
      * f_equal; [|f_equal; rewrite <- !app_assoc; reflexivity].
        cbn [List.filter].
        replace (accepted c data) with false by (unfold accepted; now rewrite E).
        reflexivity.
      * rewrite !insert_calls_app. unfold insert_calls at 1. rewrite Hnoins.
        rewrite Hins. reflexivity.
      * cbn [calls_from].
        assert (Hd : d_embedding data = v) by (now rewrite Hdata).
        rewrite Hd. split; [exact Hdata|]. split; [|exact Hfrom].
        intros model u Hm Hu. now apply (Hmodel model u).
    + unfold bind2 at 1, print2, call2, ret2 at 1. cbn [fst snd log2 rng2].
      match goal with |- context [store_examples_loop _ _ _ _ _ _ _ _ ?w'] =>
        destruct (IH (idx + 1) success_count w') as (calls & evs & rng' & Hrun & Hins & Hfrom)
      end.
      rewrite Hrun. cbn [log2 rng2].
      exists (data :: calls). eexists. exists rng'. split; [|split].
      * f_equal; [|f_equal; rewrite <- !app_assoc; reflexivity].
        cbn [List.filter].
        replace (accepted c data) with false by (unfold accepted; now rewrite E).
        reflexivity.
      * rewrite !insert_calls_app. unfold insert_calls at 1. rewrite Hnoins.
        rewrite Hins. reflexivity.
      * cbn [calls_from].
        assert (Hd : d_embedding data = v) by (now rewrite Hdata).
        rewrite Hd. split; [exact Hdata|]. split; [|exact Hfrom].
        intros model u Hm Hu. now apply (Hmodel model u).
Qed.

Lemma filter_all_forallb {A : Type} (f : A -> bool) (l : list A) :
  (Z.of_nat (length (List.filter f l)) =? Z.of_nat (length l)) = forallb f l.
Proof.
  induction l as [|x l IH]; [reflexivity|]. cbn [List.filter forallb].
  destruct (f x); cbn [length andb].
  - rewrite <- IH. destruct (Z.eqb_spec (Z.of_nat (length (List.filter f l)))
                               (Z.of_nat (length l)));
      [apply Z.eqb_eq | apply Z.eqb_neq]; lia.
  - apply Z.eqb_neq. pose proof (List.filter_length_le f l). lia.
Qed.

Lemma store_brand_examples_run (self : BrandRAG) (d : SupabaseManager)
    (c : Client) (brand_id : option string) (examples : list string)
    (content_type source : string) (w : World2) :
  db self = Some d -> client d = Some c ->
  exists (calls : list InsertData) (evs : list Event2) (rng' : nat -> Q),
    store_brand_examples self brand_id examples content_type source w
    = (Val (forallb (accepted c) calls),
       {| log2 := log2 w ++ evs; rng2 := rng' |}) /\
    insert_calls evs = calls /\
    calls_from self brand_id content_type source 0 examples calls.
Proof.
  intros Hd Hc. unfold store_brand_examples.
  rewrite (available_db_connected self d c Hd Hc).
  destruct (store_examples_loop_run self d c brand_id content_type source Hc
              examples 0 0 w) as (calls & evs & rng' & Hrun & Hins & Hfrom).
  unfold try_except2, bind2. rewrite Hrun.
  unfold print2, call2, ret2. cbn [fst snd log2 rng2].
  exists calls. eexists. exists rng'. split; [|split; [|exact Hfrom]].
  - f_equal; [|f_equal; rewrite <- app_assoc; reflexivity].
    f_equal. rewrite Z.add_0_l.
    assert (Hlen : length calls = length examples).
    { clear - Hfrom. revert Hfrom. generalize 0.
      revert calls. induction examples as [|ex examples IH];
        intros [|dta calls] idx; cbn [calls_from]; try tauto.
      intros (_ & _ & H). cbn [length]. f_equal. now apply (IH calls (idx + 1)). }
    rewrite <- Hlen. apply filter_all_forallb.
  - rewrite insert_calls_app, Hins. cbn. now rewrite app_nil_r.
Qed.

Lemma example_metadata_full (content_type example source : string) (idx : Z) :
  full_metadata (Some (example_metadata content_type example)) source idx
  = {[ "chunk_index"%string := PyInt idx;
       "source"%string := PyStr source;
       "content_type"%string := PyStr content_type;
       "length"%string := PyInt (py_len example) ]}.
Proof.
  unfold full_metadata, example_metadata.
  destruct (decide _) as [He|]; [|reflexivity].
  exfalso. revert He. apply insert_non_empty.
Qed.

Lemma calls_from_lookup (self : BrandRAG) (brand_id : option string)
    (content_type source : string) (examples : list string) :
  forall (calls : list InsertData) (idx : Z),
    calls_from self brand_id content_type source idx examples calls ->
    length calls = length examples /\
    forall (i : nat) (example : string),
      examples !! i = Some example ->
      exists dta, calls !! i = Some dta /\
        dta = insert_data example (d_embedding dta) brand_id source
                (idx + Z.of_nat i)
                (Some (example_metadata content_type example)) /\
        (forall model v, embedder self = Some model ->
                         encode model example = Val v -> d_embedding dta = v).
Proof.
  induction examples as [|ex examples IH]; intros [|dta calls] idx;
    cbn [calls_from]; try tauto.
  - intros _. split; [reflexivity|]. intros i example Hi. discriminate.
  - intros (Hd & Hm & Hrest). destruct (IH calls (idx + 1) Hrest) as [Hlen Hall].
    split; [cbn [length]; now f_equal|].
    intros [|i] example Hi.
    + injection Hi as <-. exists dta. split; [reflexivity|].
      rewrite Z.add_0_r. auto.
    + destruct (Hall i example Hi) as (dta' & Hl & Heq & Hmod).
      exists dta'. split; [exact Hl|]. split; [|exact Hmod].
      rewrite Heq at 1. f_equal. lia.
Qed.

(** X10: on a connected store [store_brand_examples] sends every example
    once, in order and whatever happened to the earlier ones: the i-th
    row carries the i-th example, the brand as scope (the platform scope
    when no brand is given), the type "knowledge_chunk", the metadata
    chunk index i, source, content type and length, and the model's
    embedding when the model gives one. *)
Theorem store_brand_examples_sends_every_example
    (self : BrandRAG) (d : SupabaseManager) (c : Client)
    (brand_id : option string) (examples : list string)
    (content_type source : string) (w : World2) :
  db self = Some d -> client d = Some c ->
  exists (evs : list Event2),
    log2 (snd (store_brand_examples self brand_id examples content_type
                 source w)) = log2 w ++ evs /\
    length (insert_calls evs) = length examples /\
    forall (i : nat) (example : string),
      examples !! i = Some example ->
      exists dta : InsertData,
        insert_calls evs !! i = Some dta /\
        d_content dta = example /\
        d_org_id dta = brand_id /\
        d_doc_type dta = "knowledge_chunk"%string /\
        d_metadata dta
        = {[ "chunk_index"%string := PyInt (Z.of_nat i);
             "source"%string := PyStr source;
             "content_type"%string := PyStr content_type;
             "length"%string := PyInt (py_len example) ]} /\
        (forall model v, embedder self = Some model ->
                         encode model example = Val v -> d_embedding dta = v).
Proof.
  intros Hd Hc.
  destruct (store_brand_examples_run self d c brand_id examples content_type
              source w Hd Hc) as (calls & evs & rng' & Hrun & Hins & Hfrom).
  exists evs. rewrite Hrun. split; [reflexivity|]. rewrite Hins.
  destruct (calls_from_lookup self brand_id content_type source examples
              calls 0 Hfrom) as [Hlen Hall].
  split; [exact Hlen|]. intros i example Hi.
  destruct (Hall i example Hi) as (dta & Hl & Heq & Hmod).
  exists dta. split; [exact Hl|].
  rewrite Heq. cbn [insert_data d_content d_org_id d_doc_type d_metadata
                      d_embedding].
  rewrite example_metadata_full, Z.add_0_l. repeat split.
  intros model v Hm Hv. rewrite <- (Hmod model v Hm Hv). now rewrite Heq at 1.
Qed.

Lemma store_brand_examples_sends_every_example_witness :
  exists dta : InsertData,
    insert_calls (log2 (snd (store_brand_examples refusing_rag None
                               ["first"; "second"]%string "brand_knowledge"
                               "brief.pdf" quiet_world2))) !! 1%nat
    = Some dta /\
    d_content dta = "second"%string /\ d_org_id dta = None.
Proof.
  destruct (store_brand_examples_sends_every_example refusing_rag
              (mkManager (Some failing_client)) failing_client None
              ["first"; "second"]%string "brand_knowledge" "brief.pdf"
              quiet_world2 eq_refl eq_refl) as (evs & Hlog & _ & Hall).
  destruct (Hall 1%nat "second"%string eq_refl)
    as (dta & Hl & Hcontent & Horg & _).
  exists dta. cbn [log2 quiet_world2 app] in Hlog. rewrite Hlog.
  auto.
Defined.

(** X11: [store_brand_examples] never raises.  Without a store it returns
    False and only prints; on a connected store it returns True exactly
    when the store answered every insert it made with a row, so True for
    an empty list of examples. *)
Theorem store_brand_examples_result
    (self : BrandRAG) (brand_id : option string) (examples : list string)
    (content_type source : string) (w : World2) :
  exists (b : bool) (evs : list Event2) (rng' : nat -> Q),
    store_brand_examples self brand_id examples content_type source w
    = (Val b, {| log2 := log2 w ++ evs; rng2 := rng' |}) /\
    (available_db self = None ->
     b = false /\ evs = [Print2 LogStoreUnavailable]) /\
    (forall d c, db self = Some d -> client d = Some c ->
       b = forallb (accepted c) (insert_calls evs) /\
       (examples = [] -> b = true)).
Proof.
  destruct (available_db self) as [d|] eqn:Ha.
  - destruct (available_db_client self d Ha) as (Hd & c & Hc).
    destruct (store_brand_examples_run self d c brand_id examples content_type
                source w Hd Hc) as (calls & evs & rng' & Hrun & Hins & Hfrom).
    exists (forallb (accepted c) calls), evs, rng'.
    split; [exact Hrun|]. split; [discriminate|].
    intros d' c' Hd' Hc'. rewrite Hd in Hd'. injection Hd' as <-.
    rewrite Hc in Hc'. injection Hc' as <-. rewrite Hins.
    split; [reflexivity|]. intros ->.
    destruct calls; [reflexivity | contradiction].
  - exists false, [Print2 LogStoreUnavailable], (rng2 w).
    unfold store_brand_examples. rewrite Ha. split; [reflexivity|].
    split; [auto|]. intros d c Hd Hc.
    rewrite (available_db_connected self d c Hd Hc) in Ha. discriminate.
Qed.

Lemma store_brand_examples_result_witness :
  fst (store_brand_examples demo_rag (Some "brandA"%string) []
         "brand_knowledge" "brief.pdf" quiet_world2) = Val true.
Proof.
  destruct (store_brand_examples_result demo_rag (Some "brandA"%string) []
              "brand_knowledge" "brief.pdf" quiet_world2)
    as (b & evs & rng' & Hrun & _ & Hconn).
  rewrite Hrun. cbn [fst]. f_equal.
  now apply (Hconn (mkManager (Some demo_client)) demo_client eq_refl eq_refl).
Defined.

(** ** Statistics *)



(** ** Retrieval *)

Lemma slice_to_nonempty {A : Type} (k : Z) (l : list A) :
  1 <= k -> l <> [] -> slice_to k l <> [].
Proof.
  intros Hk Hl. rewrite slice_to_take by lia.
  destruct l as [|x l]; [contradiction|].
  destruct (Z.to_nat k) as [|n] eqn:E; [lia | discriminate].
Qed.

(** X13: [retrieve_brand_context] never raises and always answers: with
    [top_k >= 1] the list is never empty, and with [top_k >= 0] it has at
    most [max(top_k, 3)] items; so the handler's call, with [top_k = 3],
    gets one to three texts, with or without store. *)
Theorem retrieve_always_answers
    (self : BrandRAG) (brand_id : option string) (query : string)
    (top_k : Z) (include_platform : bool) (w : World) :
  exists items : list string,
    fst (retrieve_brand_context self brand_id query top_k include_platform w)
    = Val items /\
    (1 <= top_k -> items <> []) /\
    (0 <= top_k -> Z.of_nat (length items) <= Z.max top_k 3).
Proof.
  destruct (available_db self) as [d|] eqn:Ha.
  - destruct (available_db_client self d Ha) as (Hd & c & Hc).
    destruct (create_embedding_returns self query w) as (q & w1 & Hq & _).
    destruct (retrieve_brand_context_run self d c brand_id query top_k
                include_platform w w1 q Hd Hc Hq) as [Hval _].
    cbv zeta in Hval. rewrite Hval.
    set (acc := brand_rows c q brand_id top_k
                ++ platform_rows c q include_platform top_k
                     (brand_rows c q brand_id top_k)).
    destruct (nonempty acc) eqn:Hne.
    + eexists. split; [reflexivity|]. split.
      * intros Hk Hmap. apply map_eq_nil in Hmap.
        apply nonempty_true in Hne. now apply (slice_to_nonempty top_k acc Hk).
      * intros Hk. rewrite length_map.
        pose proof (slice_to_length top_k acc Hk). lia.
    + eexists. split; [reflexivity|]. split; [discriminate|].
      intros _. simpl. lia.
  - unfold retrieve_brand_context. rewrite Ha.
    eexists. split; [reflexivity|]. split; [discriminate|].
    intros _. simpl. lia.
Qed.

Lemma retrieve_always_answers_witness :
  exists items : list string,
    fst (retrieve_brand_context empty_store_rag (Some "brandA"%string)
           "launch" 3 true quiet_world) = Val items /\
    items <> [] /\ Z.of_nat (length items) <= 3.
Proof.
  destruct (retrieve_always_answers empty_store_rag (Some "brandA"%string)
              "launch" 3 true quiet_world) as (items & Hval & Hne & Hlen).
  exists items. split; [exact Hval|]. split; [apply Hne; lia|].
  apply (Hlen ltac:(lia)).
Defined.

(** X14: without [include_platform] the platform scope is never
    searched: the only search is the brand's, the answer is made of brand
    rows alone, and without brand id no search is made at all and the
    default examples are returned. *)
Theorem retrieve_brand_scope_only
    (self : BrandRAG) (d : SupabaseManager) (c : Client)
    (brand_id : option string) (query : string) (top_k : Z) (w : World) :
  db self = Some d -> client d = Some c ->
  exists (q : list Q) (w1 : World),
    create_embedding self query w = (Val q, w1) /\
    let brand := brand_rows c q brand_id top_k in
    let out := retrieve_brand_context self brand_id query top_k false w in
    rpc_calls (log (snd out))
    = rpc_calls (log w)
      ++ (if truthy_str brand_id
          then [mkRpc q brand_id search_threshold top_k] else []) /\
    Forall (fun p => match_org_id p <> None)
      (if truthy_str brand_id
       then [mkRpc q brand_id search_threshold top_k] else []) /\
    fst out = Val (if nonempty brand
                   then map content (slice_to top_k brand)
                   else _get_default_examples) /\
    (truthy_str brand_id = false -> fst out = Val _get_default_examples).
Proof.
  intros Hd Hc.
  destruct (create_embedding_returns self query w) as (q & w1 & Hq & Hlog).
  destruct (retrieve_brand_context_run self d c brand_id query top_k
              false w w1 q Hd Hc Hq) as [Hval Hcalls].
  exists q, w1. split; [exact Hq|]. cbv zeta in *.
  unfold platform_rows, platform_wanted in *. cbn [andb] in *.
  rewrite app_nil_r in *. split; [|split; [|split]].
  - rewrite Hcalls, Hlog. reflexivity.
  - destruct brand_id as [[|a s]|]; repeat constructor. discriminate.
  - exact Hval.
  - intros Hf. rewrite Hval. unfold brand_rows. now rewrite Hf.
Qed.

Lemma retrieve_brand_scope_only_witness :
  fst (retrieve_brand_context demo_rag None "launch" 3 false quiet_world)
  = Val _get_default_examples.
Proof.
  destruct (retrieve_brand_scope_only demo_rag (mkManager (Some demo_client))
              demo_client None "launch" 3 quiet_world eq_refl eq_refl)
    as (q & w1 & _ & _ & _ & _ & Hnone).
  now apply Hnone.
Defined.

Lemma reads_only_search_events (c : Client) (p : RpcParams) :
  Forall reads_only (search_events c p).
Proof.
  unfold search_events. destruct (rpc_execute c p); repeat constructor.
Qed.

Lemma encode_calls_search_events (c : Client) (p : RpcParams) :
  encode_calls (search_events c p) = [].
Proof. unfold search_events. destruct (rpc_execute c p); reflexivity. Qed.

Lemma encode_calls_app (e1 e2 : list Event) :
  encode_calls (e1 ++ e2) = encode_calls e1 ++ encode_calls e2.
Proof. apply omap_app. Qed.

(** Closes a branch of the run with the events after the embedding. *)
Ltac close_log :=
  rewrite print_run, ret_run; cbn [fst snd];
  rewrite ?logged_logged; cbn [log logged]; eexists;
  (split; [reflexivity|]);
  (split;
   [ repeat (apply Forall_app; split);
     first [apply reads_only_search_events | repeat constructor]
   | rewrite ?encode_calls_app, ?encode_calls_search_events; reflexivity ]).

Lemma retrieve_brand_context_log
    (self : BrandRAG) (d : SupabaseManager) (c : Client)
    (brand_id : option string) (query : string) (top_k : Z)
    (include_platform : bool) (w w1 : World) (q : list Q) :
  db self = Some d -> client d = Some c ->
  create_embedding self query w = (Val q, w1) ->
  exists evs : list Event,
    log (snd (retrieve_brand_context self brand_id query top_k
                include_platform w)) = log w1 ++ evs /\
    Forall reads_only evs /\ encode_calls evs = [].
Proof.
  intros Hd Hc Hq. unfold retrieve_brand_context.
  rewrite (available_db_connected self d c Hd Hc).
  unfold try_except, bind. rewrite Hq.
  destruct (truthy_str brand_id).
  - rewrite (semantic_search_run d c) by exact Hc.
    set (brand := rows_of c _).
    rewrite print_run, ret_run. cbn [app].
    destruct (include_platform && (Z.of_nat (length brand) <? top_k)).
    + rewrite (semantic_search_run d c) by exact Hc.
      set (platform := rows_of c _).
      rewrite print_run, ret_run.
      destruct (nonempty (brand ++ platform)); close_log.
    + rewrite ret_run. destruct (nonempty brand); close_log.
  - rewrite ret_run. cbn [app].
    destruct (include_platform && (Z.of_nat (length (@nil Row)) <? top_k)).
    + rewrite (semantic_search_run d c) by exact Hc.
      set (platform := rows_of c _).
      rewrite print_run, ret_run. cbn [app].
      destruct (nonempty platform); close_log.
    + rewrite ret_run. cbn [nonempty]. close_log.
Qed.

(** X15: retrieval only reads: whatever the store and the model do, a
    call sends no insert and no count, and asks the model for one
    embedding at most, of the query, even when it searches both scopes. *)
Theorem retrieve_only_reads
    (self : BrandRAG) (brand_id : option string) (query : string)
    (top_k : Z) (include_platform : bool) (w : World) :
  exists evs : list Event,
    log (snd (retrieve_brand_context self brand_id query top_k
                include_platform w)) = log w ++ evs /\
    Forall reads_only evs /\
    (encode_calls evs = [] \/ encode_calls evs = [query]) /\
    (forall d model, available_db self = Some d -> embedder self = Some model ->
                     encode_calls evs = [query]).
Proof.
  destruct (available_db self) as [d|] eqn:Ha.
  - destruct (available_db_client self d Ha) as (Hd & c & Hc).
    pose proof (create_embedding_run self query w) as Hrun.
    destruct (embedder self) as [model|] eqn:Hm.
    + destruct (encode model query) as [v|e] eqn:E;
        destruct (retrieve_brand_context_log self d c brand_id query top_k
                    include_platform w _ _ Hd Hc Hrun)
          as (evs & Hlog & Hread & Henc);
        rewrite Hlog; unfold drawn, logged; cbn [log];
        rewrite <- app_assoc; eexists; (split; [reflexivity|]);
        (split; [apply Forall_app; split;
                 [repeat constructor | exact Hread]|]);
        rewrite encode_calls_app, Henc; cbn; auto.
    + destruct (retrieve_brand_context_log self d c brand_id query top_k
                  include_platform w _ _ Hd Hc Hrun)
        as (evs & Hlog & Hread & Henc).
      rewrite Hlog. unfold drawn, logged. cbn [log].
      rewrite <- app_assoc. eexists. split; [reflexivity|].
      split; [apply Forall_app; split; [repeat constructor | exact Hread]|].
      rewrite encode_calls_app, Henc. cbn. split; [auto|].
      intros d' model' _ [=].
  - unfold retrieve_brand_context. rewrite Ha.
    exists [EvPrint LogSupabaseUnavailable]. split; [reflexivity|].
    split; [repeat constructor|]. split; [now left|].
    intros d' model' [=].
Qed.

Lemma retrieve_only_reads_witness :
  exists evs : list Event,
    log (snd (retrieve_brand_context demo_rag (Some "brandA"%string) "launch"
                3 true quiet_world)) = evs /\
    encode_calls evs = ["launch"%string].
Proof.
  destruct (retrieve_only_reads demo_rag (Some "brandA"%string) "launch" 3
              true quiet_world) as (evs & Hlog & _ & _ & Hmodel).
  exists evs. split; [exact Hlog|].
  now apply (Hmodel (mkManager (Some demo_client))
               (mkEmbedder (fun _ => Val [(1 # 2)%Q]))).
Defined.

(** ** The chunks are clean *)

Lemma emit_length (buffer : pystr) : (length (emit buffer) <= 1)%nat.
Proof.
  unfold emit. destruct (nonempty (remove_nul (strip buffer))); simpl; lia.
Qed.

(** A flush adds one chunk at most, and none for a buffer that stripping
    empties: there are never more chunks than paragraphs and buffers. *)
Lemma accumulate_length (m : Z) (ps : list pystr) (buffer : pystr) :
  (length (accumulate m buffer ps) <= length ps + length (emit buffer))%nat.
Proof.
  revert buffer. induction ps as [|p ps IH]; intros buffer; simpl; [lia|].
  destruct (m <=? len buffer + len p).
  - rewrite length_app. pose proof (IH (p ++ blank)).
    pose proof (emit_length (p ++ blank)). lia.
  - pose proof (IH (buffer ++ p ++ blank)).
    pose proof (emit_length (buffer ++ p ++ blank)). lia.
Qed.

Lemma isspace_text_nul_free (text : pystr) :
  forallb isspace text = true -> ~ In NUL text.
Proof.
  intros Hall Hin. rewrite forallb_forall in Hall.
  specialize (Hall NUL Hin). discriminate.
Qed.

Lemma chunk_text_of_whitespace (text : pystr) :
  forallb isspace text = true -> chunk_text text = [].
Proof.
  intros Hall. pose proof (isspace_text_nul_free text Hall) as Hnul.
  destruct (chunk_text text) as [|c cs] eqn:E; [reflexivity|]. exfalso.
  assert (Hc : In c (chunk_text text)) by (rewrite E; now left).
  pose proof (chunk_text_tight text c Hnul Hc) as (Hne & Hl & _).
  destruct c as [|x t]; [contradiction|].
  pose proof (lstrip_head x t Hl) as Hx.
  assert (Hv : In x (visible (concat (chunk_text text)))).
  { rewrite E. simpl concat. apply visible_in. split; [now left|].
    unfold keep. rewrite Hx. simpl. apply negb_true_iff, N.eqb_neq.
    intros ->. apply (chunk_text_nul_free text (NUL :: t) Hc). now left. }
  rewrite chunk_text_keeps_visible_text_aux in Hv.
  apply visible_in in Hv as [Hin _].
  rewrite forallb_forall in Hall. rewrite (Hall x Hin) in Hx. discriminate.
Qed.

Lemma tight_clean_chunk (c : pystr) : tight c -> strip c <> [] /\ strip c = c.
Proof.
  intros Ht. pose proof (tight_strip c Ht) as Hs. rewrite Hs.
  split; [apply Ht | reflexivity].
Qed.

(** C5: every chunk the loop produces from a text the handler assembles
    from pages, and from any text without null characters, is non-empty
    after stripping whitespace (it is its own strip) and has no null
    character; on any text at all a chunk is non-empty and has no null
    character.  What stripping leaves empty is dropped, not emitted: a
    text of whitespace only gives no chunk, and there are never more
    chunks than paragraphs. *)
Theorem chunks_nonempty_without_nul
    (text c : pystr) (pages : list (option pystr)) :
  (In c (chunk_text (extract_full_text pages)) ->
   strip c <> [] /\ strip c = c /\ ~ In NUL c) /\
  (~ In NUL text -> In c (chunk_text text) ->
   strip c <> [] /\ strip c = c /\ ~ In NUL c) /\
  (In c (chunk_text text) -> c <> [] /\ ~ In NUL c) /\
  (forallb isspace text = true -> chunk_text text = []) /\
  (length (chunk_text text) <= length (paragraphs text))%nat.
Proof.
  assert (Hclean : forall t : pystr, ~ In NUL t -> In c (chunk_text t) ->
                     strip c <> [] /\ strip c = c /\ ~ In NUL c).
  { intros t Hnul Hc.
    destruct (tight_clean_chunk c (chunk_text_tight t c Hnul Hc)) as [H1 H2].
    split; [exact H1|]. split; [exact H2|]. now apply (chunk_text_nul_free t). }
  split; [|split; [|split; [|split]]].
  - apply Hclean, extract_full_text_nul_free.
  - apply Hclean.
  - intros Hc. split; [|now apply (chunk_text_nul_free text)].
    rewrite chunk_text_accumulate in Hc.
    destruct (accumulate_in _ _ _ _ Hc) as [b Hb].
    now apply emit_in in Hb as (_ & Hne & _).
  - apply chunk_text_of_whitespace.
  - rewrite chunk_text_accumulate.
    pose proof (accumulate_length 500 (paragraphs text) []).
    change (length (emit [])) with 0%nat in H. lia.
Qed.

Lemma chunks_nonempty_without_nul_witness :
  strip (of_string "hello") <> [] /\ ~ In NUL (of_string "hello") /\
  chunk_text (of_string "
   ") = [].
Proof.
  pose proof (chunks_nonempty_without_nul
                (of_string " hello  ") (of_string "hello")
                [Some (of_string " hello  ")])
    as (Hpages & _ & _ & _ & _).
  pose proof (chunks_nonempty_without_nul
                (of_string "
   ") [] []) as (_ & _ & _ & Hblank & _).
  destruct (Hpages ltac:(vm_compute; now left)) as (Hne & _ & Hnul).
  split; [exact Hne|]. split; [exact Hnul|].
  apply Hblank. reflexivity.
Defined.
